(** * job_board: the content-based recommendation engine

    A shallow embedding of [job_board/recommendations.py] (class
    [RecommendationEngine]) together with the parts of [job_board/models.py]
    it reads and writes and its callers in [job_board/tasks.py] and
    [job_board/views.py], followed by the properties of the engine.

    - Python floats are binary64 numbers.  They are represented by their exact
      rational value; every arithmetic operation is the exact operation
      followed by rounding to the nearest binary64 number, ties to even
      (module [PyFloat]).
    - Python strings are represented by their UTF-8 encoding; [lower] follows
      CPython's [str.lower()] (module [PyStr]).
    - Python sets of skill names are [gset string]; the weight dictionary is a
      [gmap string Q].
    - The recommendation table is a list of rows.  Django runs in autocommit
      mode and the engine opens no transaction, so every write statement is
      committed on its own; the world records each committed state of the
      table and an oracle telling which write statements raise. *)

From Stdlib Require Import ZArith QArith Qround Qpower Qabs Qreduction Lqa Lia.
From Stdlib Require Import List String Ascii DecimalString Sorted.
From stdpp Require Import gmap strings list.

(* ------------------------------------------------------------------ *)
(** ** Python floats *)

Module PyFloat.
#[local] Open Scope Q_scope.

(** Nearest integer, ties to even. *)
Definition rne (x : Q) : Z :=
  let f := Qfloor x in
  match Qcompare (x - inject_Z f) (1 # 2) with
  | Lt => f
  | Gt => (f + 1)%Z
  | Eq => if Z.even f then f else (f + 1)%Z
  end.

(** [floor (log2 x)] for a positive rational. *)
Definition ilog2 (x : Q) : Z :=
  let d := (Z.log2 (Qnum x) - Z.log2 (Zpos (Qden x)))%Z in
  if Qle_bool (2 ^ d) x then d else (d - 1)%Z.

(** Exponent of the last mantissa bit of a binary64 number of magnitude
    [x]: 53 bits of precision, smallest exponent -1074 (subnormals). *)
Definition fexp (x : Q) : Z := Z.max (ilog2 x - 52) (-1074).

(** Rounding to binary64, round-to-nearest-even.  The values of the engine
    never exceed 100, so the overflow threshold plays no part. *)
Definition round_binary64 (x : Q) : Q :=
  let y := Qred x in
  let e := fexp (Qabs y) in
  Qred (inject_Z (rne (y / 2 ^ e)) * 2 ^ e).

(** A decimal literal such as [0.6] denotes the nearest binary64 number. *)
Definition float_lit (q : Q) : Q := round_binary64 q.

Definition fadd (x y : Q) : Q := round_binary64 (x + y).
Definition fmul (x y : Q) : Q := round_binary64 (x * y).

(** [a / b] on Python ints: the correctly rounded quotient. *)
Definition int_truediv (a b : nat) : Q :=
  round_binary64 (inject_Z (Z.of_nat a) / inject_Z (Z.of_nat b)).

(** [x > y] on floats. *)
Definition fgt (x y : Q) : bool := negb (Qle_bool x y).

(** [round(x, ndigits)]: the decimal with [ndigits] fractional digits that
    is nearest to the exact value of [x] (ties to even), converted back to
    binary64. *)
Definition py_round (x : Q) (ndigits : nat) : Q :=
  let scale := inject_Z (10 ^ Z.of_nat ndigits) in
  round_binary64 (inject_Z (rne (x * scale)) / scale).

(** [int(x)]: truncation toward zero. *)
Definition py_int (x : Q) : Z := Z.quot (Qnum x) (Zpos (Qden x)).
End PyFloat.

(* ------------------------------------------------------------------ *)
(** ** Python strings

    A [str] is represented by its UTF-8 encoding, the form in which string
    literals are written here.  For well-formed UTF-8 a byte string occurs in
    another exactly when the text it encodes occurs in the other's text, so
    [in] is substring search on the bytes.  [lower] follows CPython's
    [str.lower()] with the tables of Unicode 14.0.0. *)

Module PyStr.
#[local] Open Scope N_scope.

(** A code point, or a byte that is not part of well-formed UTF-8 (kept as
    it is). *)
Inductive item :=
| Cp (c : N)
| Raw (b : ascii).

(** The payload of a continuation byte. *)
Definition continuation (b : ascii) : option N :=
  let n := N_of_ascii b in
  if (128 <=? n) && (n <? 192) then Some (n - 128) else None.

Fixpoint decode (s : string) : list item :=
  match s with
  | EmptyString => []
  | String b0 r0 =>
      let n0 := N_of_ascii b0 in
      let raw := Raw b0 :: decode r0 in
      if n0 <? 128 then Cp n0 :: decode r0
      else if n0 <? 194 then raw
      else if n0 <? 224 then
        match r0 with
        | String b1 r1 =>
            match continuation b1 with
            | Some c1 => Cp ((n0 - 192) * 64 + c1) :: decode r1
            | None => raw
            end
        | _ => raw
        end
      else if n0 <? 240 then
        match r0 with
        | String b1 (String b2 r2) =>
            match continuation b1, continuation b2 with
            | Some c1, Some c2 =>
                let c := (n0 - 224) * 4096 + c1 * 64 + c2 in
                if (2048 <=? c) && negb ((55296 <=? c) && (c <=? 57343))
                then Cp c :: decode r2 else raw
            | _, _ => raw
            end
        | _ => raw
        end
      else if n0 <? 245 then
        match r0 with
        | String b1 (String b2 (String b3 r3)) =>
            match continuation b1, continuation b2, continuation b3 with
            | Some c1, Some c2, Some c3 =>
                let c := (n0 - 240) * 262144 + c1 * 4096 + c2 * 64 + c3 in
                if (65536 <=? c) && (c <=? 1114111)
                then Cp c :: decode r3 else raw
            | _, _, _ => raw
            end
        | _ => raw
        end
      else raw
  end.

Definition byte (n : N) : string := String (ascii_of_N n) EmptyString.

Definition encode_item (i : item) : string :=
  match i with
  | Raw b => String b EmptyString
  | Cp c =>
      if c <? 128 then byte c
      else if c <? 2048 then byte (192 + c / 64) +:+ byte (128 + c mod 64)
      else if c <? 65536 then
        byte (224 + c / 4096) +:+ byte (128 + (c / 64) mod 64)
        +:+ byte (128 + c mod 64)
      else
        byte (240 + c / 262144) +:+ byte (128 + (c / 4096) mod 64)
        +:+ byte (128 + (c / 64) mod 64) +:+ byte (128 + c mod 64)
  end.

Fixpoint encode (l : list item) : string :=
  match l with
  | [] => EmptyString
  | i :: r => encode_item i +:+ encode r
  end.

(** Simple lowercase mappings [(lo, hi, step, image)]: every code point
    [lo + k * step <= hi] maps to [image + k * step]. *)
Definition lowercase_table : list (N * N * N * N) := [
  (65, 90, 1, 97); (192, 214, 1, 224); (216, 222, 1, 248); (256, 302, 2,
  257); (306, 310, 2, 307); (313, 327, 2, 314); (330, 374, 2, 331); (376,
  376, 1, 255); (377, 381, 2, 378); (385, 385, 1, 595); (386, 388, 2, 387);
  (390, 390, 1, 596); (391, 391, 1, 392); (393, 394, 1, 598); (395, 395, 1,
  396); (398, 398, 1, 477); (399, 399, 1, 601); (400, 400, 1, 603); (401,
  401, 1, 402); (403, 403, 1, 608); (404, 404, 1, 611); (406, 406, 1, 617);
  (407, 407, 1, 616); (408, 408, 1, 409); (412, 412, 1, 623); (413, 413, 1,
  626); (415, 415, 1, 629); (416, 420, 2, 417); (422, 422, 1, 640); (423,
  423, 1, 424); (425, 425, 1, 643); (428, 428, 1, 429); (430, 430, 1, 648);
  (431, 431, 1, 432); (433, 434, 1, 650); (435, 437, 2, 436); (439, 439, 1,
  658); (440, 440, 1, 441); (444, 444, 1, 445); (452, 452, 1, 454); (453,
  453, 1, 454); (455, 455, 1, 457); (456, 456, 1, 457); (458, 458, 1, 460);
  (459, 475, 2, 460); (478, 494, 2, 479); (497, 497, 1, 499); (498, 500, 2,
  499); (502, 502, 1, 405); (503, 503, 1, 447); (504, 542, 2, 505); (544,
  544, 1, 414); (546, 562, 2, 547); (570, 570, 1, 11365); (571, 571, 1,
  572); (573, 573, 1, 410); (574, 574, 1, 11366); (577, 577, 1, 578); (579,
  579, 1, 384); (580, 580, 1, 649); (581, 581, 1, 652); (582, 590, 2, 583);
  (880, 882, 2, 881); (886, 886, 1, 887); (895, 895, 1, 1011); (902, 902, 1,
  940); (904, 906, 1, 941); (908, 908, 1, 972); (910, 911, 1, 973); (913,
  929, 1, 945); (931, 939, 1, 963); (975, 975, 1, 983); (984, 1006, 2, 985);
  (1012, 1012, 1, 952); (1015, 1015, 1, 1016); (1017, 1017, 1, 1010); (1018,
  1018, 1, 1019); (1021, 1023, 1, 891); (1024, 1039, 1, 1104); (1040, 1071,
  1, 1072); (1120, 1152, 2, 1121); (1162, 1214, 2, 1163); (1216, 1216, 1,
  1231); (1217, 1229, 2, 1218); (1232, 1326, 2, 1233); (1329, 1366, 1,
  1377); (4256, 4293, 1, 11520); (4295, 4295, 1, 11559); (4301, 4301, 1,
  11565); (5024, 5103, 1, 43888); (5104, 5109, 1, 5112); (7312, 7354, 1,
  4304); (7357, 7359, 1, 4349); (7680, 7828, 2, 7681); (7838, 7838, 1, 223);
  (7840, 7934, 2, 7841); (7944, 7951, 1, 7936); (7960, 7965, 1, 7952);
  (7976, 7983, 1, 7968); (7992, 7999, 1, 7984); (8008, 8013, 1, 8000);
  (8025, 8031, 2, 8017); (8040, 8047, 1, 8032); (8072, 8079, 1, 8064);
  (8088, 8095, 1, 8080); (8104, 8111, 1, 8096); (8120, 8121, 1, 8112);
  (8122, 8123, 1, 8048); (8124, 8124, 1, 8115); (8136, 8139, 1, 8050);
  (8140, 8140, 1, 8131); (8152, 8153, 1, 8144); (8154, 8155, 1, 8054);
  (8168, 8169, 1, 8160); (8170, 8171, 1, 8058); (8172, 8172, 1, 8165);
  (8184, 8185, 1, 8056); (8186, 8187, 1, 8060); (8188, 8188, 1, 8179);
  (8486, 8486, 1, 969); (8490, 8490, 1, 107); (8491, 8491, 1, 229); (8498,
  8498, 1, 8526); (8544, 8559, 1, 8560); (8579, 8579, 1, 8580); (9398, 9423,
  1, 9424); (11264, 11311, 1, 11312); (11360, 11360, 1, 11361); (11362,
  11362, 1, 619); (11363, 11363, 1, 7549); (11364, 11364, 1, 637); (11367,
  11371, 2, 11368); (11373, 11373, 1, 593); (11374, 11374, 1, 625); (11375,
  11375, 1, 592); (11376, 11376, 1, 594); (11378, 11378, 1, 11379); (11381,
  11381, 1, 11382); (11390, 11391, 1, 575); (11392, 11490, 2, 11393);
  (11499, 11501, 2, 11500); (11506, 11506, 1, 11507); (42560, 42604, 2,
  42561); (42624, 42650, 2, 42625); (42786, 42798, 2, 42787); (42802, 42862,
  2, 42803); (42873, 42875, 2, 42874); (42877, 42877, 1, 7545); (42878,
  42886, 2, 42879); (42891, 42891, 1, 42892); (42893, 42893, 1, 613);
  (42896, 42898, 2, 42897); (42902, 42920, 2, 42903); (42922, 42922, 1,
  614); (42923, 42923, 1, 604); (42924, 42924, 1, 609); (42925, 42925, 1,
  620); (42926, 42926, 1, 618); (42928, 42928, 1, 670); (42929, 42929, 1,
  647); (42930, 42930, 1, 669); (42931, 42931, 1, 43859); (42932, 42946, 2,
  42933); (42948, 42948, 1, 42900); (42949, 42949, 1, 642); (42950, 42950,
  1, 7566); (42951, 42953, 2, 42952); (42960, 42960, 1, 42961); (42966,
  42968, 2, 42967); (42997, 42997, 1, 42998); (65313, 65338, 1, 65345);
  (66560, 66599, 1, 66600); (66736, 66771, 1, 66776); (66928, 66964, 2,
  66967); (66929, 66938, 1, 66968); (66940, 66954, 1, 66979); (66956, 66962,
  1, 66995); (66964, 66965, 1, 67003); (68736, 68786, 1, 68800); (71840,
  71871, 1, 71872); (93760, 93791, 1, 93792); (125184, 125217, 1, 125218)
].

(** Cased code points (among those that are not case-ignorable). *)
Definition cased_table : list (N * N) := [
  (65, 90); (97, 122); (170, 170); (181, 181); (186, 186); (192, 214); (216,
  246); (248, 442); (444, 447); (452, 659); (661, 687); (880, 883); (886,
  887); (891, 893); (895, 895); (902, 902); (904, 906); (908, 908); (910,
  929); (931, 1013); (1015, 1153); (1162, 1327); (1329, 1366); (1376, 1416);
  (4256, 4293); (4295, 4295); (4301, 4301); (4304, 4346); (4349, 4351);
  (5024, 5109); (5112, 5117); (7296, 7304); (7312, 7354); (7357, 7359);
  (7424, 7467); (7531, 7543); (7545, 7578); (7680, 7957); (7960, 7965);
  (7968, 8005); (8008, 8013); (8016, 8023); (8025, 8025); (8027, 8027);
  (8029, 8029); (8031, 8061); (8064, 8116); (8118, 8124); (8126, 8126);
  (8130, 8132); (8134, 8140); (8144, 8147); (8150, 8155); (8160, 8172);
  (8178, 8180); (8182, 8188); (8450, 8450); (8455, 8455); (8458, 8467);
  (8469, 8469); (8473, 8477); (8484, 8484); (8486, 8486); (8488, 8488);
  (8490, 8493); (8495, 8500); (8505, 8505); (8508, 8511); (8517, 8521);
  (8526, 8526); (8544, 8575); (8579, 8580); (9398, 9449); (11264, 11387);
  (11390, 11492); (11499, 11502); (11506, 11507); (11520, 11557); (11559,
  11559); (11565, 11565); (42560, 42605); (42624, 42651); (42786, 42863);
  (42865, 42887); (42891, 42894); (42896, 42954); (42960, 42961); (42963,
  42963); (42965, 42969); (42997, 42998); (43002, 43002); (43824, 43866);
  (43872, 43880); (43888, 43967); (64256, 64262); (64275, 64279); (65313,
  65338); (65345, 65370); (66560, 66639); (66736, 66771); (66776, 66811);
  (66928, 66938); (66940, 66954); (66956, 66962); (66964, 66965); (66967,
  66977); (66979, 66993); (66995, 67001); (67003, 67004); (68736, 68786);
  (68800, 68850); (71840, 71903); (93760, 93823); (119808, 119892); (119894,
  119964); (119966, 119967); (119970, 119970); (119973, 119974); (119977,
  119980); (119982, 119993); (119995, 119995); (119997, 120003); (120005,
  120069); (120071, 120074); (120077, 120084); (120086, 120092); (120094,
  120121); (120123, 120126); (120128, 120132); (120134, 120134); (120138,
  120144); (120146, 120485); (120488, 120512); (120514, 120538); (120540,
  120570); (120572, 120596); (120598, 120628); (120630, 120654); (120656,
  120686); (120688, 120712); (120714, 120744); (120746, 120770); (120772,
  120779); (122624, 122633); (122635, 122654); (125184, 125251); (127280,
  127305); (127312, 127337); (127344, 127369)
].

(** Case-ignorable code points. *)
Definition case_ignorable_table : list (N * N) := [
  (39, 39); (46, 46); (58, 58); (94, 94); (96, 96); (168, 168); (173, 173);
  (175, 175); (180, 180); (183, 184); (688, 879); (884, 885); (890, 890);
  (900, 901); (903, 903); (1155, 1161); (1369, 1369); (1375, 1375); (1425,
  1469); (1471, 1471); (1473, 1474); (1476, 1477); (1479, 1479); (1524,
  1524); (1536, 1541); (1552, 1562); (1564, 1564); (1600, 1600); (1611,
  1631); (1648, 1648); (1750, 1757); (1759, 1768); (1770, 1773); (1807,
  1807); (1809, 1809); (1840, 1866); (1958, 1968); (2027, 2037); (2042,
  2042); (2045, 2045); (2070, 2093); (2137, 2139); (2184, 2184); (2192,
  2193); (2200, 2207); (2249, 2306); (2362, 2362); (2364, 2364); (2369,
  2376); (2381, 2381); (2385, 2391); (2402, 2403); (2417, 2417); (2433,
  2433); (2492, 2492); (2497, 2500); (2509, 2509); (2530, 2531); (2558,
  2558); (2561, 2562); (2620, 2620); (2625, 2626); (2631, 2632); (2635,
  2637); (2641, 2641); (2672, 2673); (2677, 2677); (2689, 2690); (2748,
  2748); (2753, 2757); (2759, 2760); (2765, 2765); (2786, 2787); (2810,
  2815); (2817, 2817); (2876, 2876); (2879, 2879); (2881, 2884); (2893,
  2893); (2901, 2902); (2914, 2915); (2946, 2946); (3008, 3008); (3021,
  3021); (3072, 3072); (3076, 3076); (3132, 3132); (3134, 3136); (3142,
  3144); (3146, 3149); (3157, 3158); (3170, 3171); (3201, 3201); (3260,
  3260); (3263, 3263); (3270, 3270); (3276, 3277); (3298, 3299); (3328,
  3329); (3387, 3388); (3393, 3396); (3405, 3405); (3426, 3427); (3457,
  3457); (3530, 3530); (3538, 3540); (3542, 3542); (3633, 3633); (3636,
  3642); (3654, 3662); (3761, 3761); (3764, 3772); (3782, 3782); (3784,
  3789); (3864, 3865); (3893, 3893); (3895, 3895); (3897, 3897); (3953,
  3966); (3968, 3972); (3974, 3975); (3981, 3991); (3993, 4028); (4038,
  4038); (4141, 4144); (4146, 4151); (4153, 4154); (4157, 4158); (4184,
  4185); (4190, 4192); (4209, 4212); (4226, 4226); (4229, 4230); (4237,
  4237); (4253, 4253); (4348, 4348); (4957, 4959); (5906, 5908); (5938,
  5939); (5970, 5971); (6002, 6003); (6068, 6069); (6071, 6077); (6086,
  6086); (6089, 6099); (6103, 6103); (6109, 6109); (6155, 6159); (6211,
  6211); (6277, 6278); (6313, 6313); (6432, 6434); (6439, 6440); (6450,
  6450); (6457, 6459); (6679, 6680); (6683, 6683); (6742, 6742); (6744,
  6750); (6752, 6752); (6754, 6754); (6757, 6764); (6771, 6780); (6783,
  6783); (6823, 6823); (6832, 6862); (6912, 6915); (6964, 6964); (6966,
  6970); (6972, 6972); (6978, 6978); (7019, 7027); (7040, 7041); (7074,
  7077); (7080, 7081); (7083, 7085); (7142, 7142); (7144, 7145); (7149,
  7149); (7151, 7153); (7212, 7219); (7222, 7223); (7288, 7293); (7376,
  7378); (7380, 7392); (7394, 7400); (7405, 7405); (7412, 7412); (7416,
  7417); (7468, 7530); (7544, 7544); (7579, 7679); (8125, 8125); (8127,
  8129); (8141, 8143); (8157, 8159); (8173, 8175); (8189, 8190); (8203,
  8207); (8216, 8217); (8228, 8228); (8231, 8231); (8234, 8238); (8288,
  8292); (8294, 8303); (8305, 8305); (8319, 8319); (8336, 8348); (8400,
  8432); (11388, 11389); (11503, 11505); (11631, 11631); (11647, 11647);
  (11744, 11775); (11823, 11823); (12293, 12293); (12330, 12333); (12337,
  12341); (12347, 12347); (12441, 12446); (12540, 12542); (40981, 40981);
  (42232, 42237); (42508, 42508); (42607, 42610); (42612, 42621); (42623,
  42623); (42652, 42655); (42736, 42737); (42752, 42785); (42864, 42864);
  (42888, 42890); (42994, 42996); (43000, 43001); (43010, 43010); (43014,
  43014); (43019, 43019); (43045, 43046); (43052, 43052); (43204, 43205);
  (43232, 43249); (43263, 43263); (43302, 43309); (43335, 43345); (43392,
  43394); (43443, 43443); (43446, 43449); (43452, 43453); (43471, 43471);
  (43493, 43494); (43561, 43566); (43569, 43570); (43573, 43574); (43587,
  43587); (43596, 43596); (43632, 43632); (43644, 43644); (43696, 43696);
  (43698, 43700); (43703, 43704); (43710, 43711); (43713, 43713); (43741,
  43741); (43756, 43757); (43763, 43764); (43766, 43766); (43867, 43871);
  (43881, 43883); (44005, 44005); (44008, 44008); (44013, 44013); (64286,
  64286); (64434, 64450); (65024, 65039); (65043, 65043); (65056, 65071);
  (65106, 65106); (65109, 65109); (65279, 65279); (65287, 65287); (65294,
  65294); (65306, 65306); (65342, 65342); (65344, 65344); (65392, 65392);
  (65438, 65439); (65507, 65507); (65529, 65531); (66045, 66045); (66272,
  66272); (66422, 66426); (67456, 67461); (67463, 67504); (67506, 67514);
  (68097, 68099); (68101, 68102); (68108, 68111); (68152, 68154); (68159,
  68159); (68325, 68326); (68900, 68903); (69291, 69292); (69446, 69456);
  (69506, 69509); (69633, 69633); (69688, 69702); (69744, 69744); (69747,
  69748); (69759, 69761); (69811, 69814); (69817, 69818); (69821, 69821);
  (69826, 69826); (69837, 69837); (69888, 69890); (69927, 69931); (69933,
  69940); (70003, 70003); (70016, 70017); (70070, 70078); (70089, 70092);
  (70095, 70095); (70191, 70193); (70196, 70196); (70198, 70199); (70206,
  70206); (70367, 70367); (70371, 70378); (70400, 70401); (70459, 70460);
  (70464, 70464); (70502, 70508); (70512, 70516); (70712, 70719); (70722,
  70724); (70726, 70726); (70750, 70750); (70835, 70840); (70842, 70842);
  (70847, 70848); (70850, 70851); (71090, 71093); (71100, 71101); (71103,
  71104); (71132, 71133); (71219, 71226); (71229, 71229); (71231, 71232);
  (71339, 71339); (71341, 71341); (71344, 71349); (71351, 71351); (71453,
  71455); (71458, 71461); (71463, 71467); (71727, 71735); (71737, 71738);
  (71995, 71996); (71998, 71998); (72003, 72003); (72148, 72151); (72154,
  72155); (72160, 72160); (72193, 72202); (72243, 72248); (72251, 72254);
  (72263, 72263); (72273, 72278); (72281, 72283); (72330, 72342); (72344,
  72345); (72752, 72758); (72760, 72765); (72767, 72767); (72850, 72871);
  (72874, 72880); (72882, 72883); (72885, 72886); (73009, 73014); (73018,
  73018); (73020, 73021); (73023, 73029); (73031, 73031); (73104, 73105);
  (73109, 73109); (73111, 73111); (73459, 73460); (78896, 78904); (92912,
  92916); (92976, 92982); (92992, 92995); (94031, 94031); (94095, 94111);
  (94176, 94177); (94179, 94180); (110576, 110579); (110581, 110587);
  (110589, 110590); (113821, 113822); (113824, 113827); (118528, 118573);
  (118576, 118598); (119143, 119145); (119155, 119170); (119173, 119179);
  (119210, 119213); (119362, 119364); (121344, 121398); (121403, 121452);
  (121461, 121461); (121476, 121476); (121499, 121503); (121505, 121519);
  (122880, 122886); (122888, 122904); (122907, 122913); (122915, 122916);
  (122918, 122922); (123184, 123197); (123566, 123566); (123628, 123631);
  (125136, 125142); (125252, 125259); (127995, 127999); (917505, 917505);
  (917536, 917631); (917760, 917999)
].

Definition in_ranges (t : list (N * N)) (c : N) : bool :=
  existsb (fun r => (fst r <=? c) && (c <=? snd r)) t.

(** The lowercase mapping of one code point; U+0130 is the only one with a
    two-character image. *)
Definition to_lower_full (c : N) : list N :=
  if c =? 304 then [105; 775]
  else
    match
      List.find
        (fun r => let '(lo, hi, step, _) := r in
                  (lo <=? c) && (c <=? hi) && ((c - lo) mod step =? 0))
        lowercase_table
    with
    | Some (lo, _, _, image) => [image + (c - lo)]
    | None => [c]
    end.

Definition is_cased (i : item) : bool :=
  match i with Cp c => in_ranges cased_table c | Raw _ => false end.

Definition is_case_ignorable (i : item) : bool :=
  match i with Cp c => in_ranges case_ignorable_table c | Raw _ => false end.

(** Whether the first character that is not case-ignorable is cased. *)
Fixpoint followed_by_cased (l : list item) : bool :=
  match l with
  | [] => false
  | i :: r => if is_case_ignorable i then followed_by_cased r else is_cased i
  end.

(** Lowercasing left to right.  [after_cased] tells whether the last
    character so far that is not case-ignorable is cased: a capital sigma
    (U+03A3) in that position and not followed by a cased letter becomes the
    final sigma U+03C2, otherwise U+03C3. *)
Fixpoint lower_items (after_cased : bool) (l : list item) : list item :=
  match l with
  | [] => []
  | i :: r =>
      let out :=
        match i with
        | Cp c =>
            if c =? 931
            then [Cp (if after_cased && negb (followed_by_cased r)
                      then 962 else 963)]
            else List.map Cp (to_lower_full c)
        | Raw b => [Raw b]
        end in
      out ++ lower_items (if is_case_ignorable i then after_cased else is_cased i) r
  end.

(** [s.lower()] *)
Definition lower (s : string) : string := encode (lower_items false (decode s)).

(** [a in b] on strings: [a] occurs in [b] as a contiguous substring. *)
Fixpoint str_in (a b : string) : bool :=
  if String.prefix a b then true
  else match b with
       | EmptyString => false
       | String _ b' => str_in a b'
       end.
End PyStr.

(* ------------------------------------------------------------------ *)
(** ** models.py: the fields the engine touches *)

Inductive JobStatus := draft | published | closed | archived.

Inductive AlgorithmType := content_based | collaborative | hybrid | trending.

#[global] Instance JobStatus_eq_dec : EqDecision JobStatus.
Proof. solve_decision. Defined.

#[global] Instance AlgorithmType_eq_dec : EqDecision AlgorithmType.
Proof. solve_decision. Defined.

#[global] Instance Q_inhabited : Inhabited Q := populate 0%Q.

(** [FreelancerProfile]; [skills] lists [skill__name] over the profile's
    [UserSkill] rows. *)
Record FreelancerProfile := {
  preferred_project_types : list string;
  preferred_locations : list string;
  is_open_to_remote : bool;
  skills : list string
}.

(** [Job]; [required_skills] lists [skill__name] over the job's [JobSkill]
    rows. *)
Record Job := {
  job_id : N;
  location : string;
  is_remote : bool;
  job_type : string;
  status : JobStatus;
  required_skills : list string
}.

(** [User] with its reverse relations: [freelancer_profile] is [None] when
    the lookup raises [FreelancerProfile.DoesNotExist]; [applications] lists
    the [job_id] of the user's applications. *)
Record User := {
  user_id : N;
  freelancer_profile : option FreelancerProfile;
  applications : list N
}.

(** A row of [JobRecommendation]. *)
Record JobRecommendation := {
  rec_user : N;
  rec_job : N;
  score : Q;
  reason : string;
  algorithm_type : AlgorithmType;
  is_viewed : bool;
  is_clicked : bool;
  is_applied : bool
}.

(* ------------------------------------------------------------------ *)
(** ** The database as the engine sees it *)

Inductive outcome (A : Type) : Type :=
| Returns (a : A)
| Raises.
Arguments Returns {A} a.
Arguments Raises {A}.

(** [jobs] is the job table in its default ordering, [job_recommendations]
    the recommendation table.  [committed] lists the states of the
    recommendation table committed so far, oldest first: these are the states
    other connections can read.  [write_faults] tells, for the write
    statements still to come, which ones raise ([true]); past its end every
    statement succeeds. *)
Record World := {
  jobs : list Job;
  job_recommendations : list JobRecommendation;
  committed : list (list JobRecommendation);
  write_faults : list bool
}.

Definition Db (A : Type) : Type := World -> outcome A * World.

#[global] Instance Db_ret : MRet Db := fun A a w => (Returns a, w).

(** Sequencing: an exception ends the run with the world as it stands. *)
#[global] Instance Db_bind : MBind Db := fun A B k m w =>
  match m w with
  | (Returns a, w') => k a w'
  | (Raises, w') => (Raises, w')
  end.

(** [Job.objects] *)
Definition all_jobs : Db (list Job) := fun w => (Returns (jobs w), w).

(** One write statement on the recommendation table, committed at once. *)
Definition write (f : list JobRecommendation -> list JobRecommendation) : Db unit :=
  fun w =>
    match write_faults w with
    | true :: rest =>
        (Raises, {| jobs := jobs w;
                    job_recommendations := job_recommendations w;
                    committed := committed w;
                    write_faults := rest |})
    | _ =>
        let t := f (job_recommendations w) in
        (Returns tt, {| jobs := jobs w;
                        job_recommendations := t;
                        committed := committed w ++ [t];
                        write_faults := tail (write_faults w) |})
    end.

(** [JobRecommendation.objects.filter(...).delete()] *)
Definition delete_where (p : JobRecommendation -> bool) : Db unit :=
  write (List.filter (fun r => negb (p r))).

(** [JobRecommendation.objects.bulk_create(objs)]; Django issues no
    statement for an empty list. *)
Definition bulk_create (objs : list JobRecommendation) : Db unit :=
  match objs with
  | [] => mret tt
  | _ => write (fun t => t ++ objs)
  end.

(* ------------------------------------------------------------------ *)
(** ** Python list operations used by the engine *)

(** [l[:limit]] *)
Definition slice_to {A} (l : list A) (limit : Z) : list A :=
  if (limit <? 0)%Z
  then firstn (Z.to_nat (Z.of_nat (length l) + limit)) l
  else firstn (Z.to_nat limit) l.

(** [l.sort(key=lambda x: x.score, reverse=True)]: a stable sort, equal
    scores keep their order. *)
Fixpoint insert_by_score (r : JobRecommendation) (l : list JobRecommendation)
  : list JobRecommendation :=
  match l with
  | [] => [r]
  | y :: ys =>
      if PyFloat.fgt (score y) (score r) then y :: insert_by_score r ys
      else r :: y :: ys
  end.

Fixpoint sort_by_score_desc (l : list JobRecommendation) : list JobRecommendation :=
  match l with
  | [] => []
  | x :: xs => insert_by_score x (sort_by_score_desc xs)
  end.

(* ------------------------------------------------------------------ *)
(** ** recommendations.py *)

Module RecommendationEngine.
Import PyFloat PyStr.

(** [self.weights] *)
Definition weights : gmap string Q :=
  {[ "skills"%string := float_lit (6 # 10);
     "location"%string := float_lit (2 # 10);
     "job_type"%string := float_lit (2 # 10) ]}.

Definition _calculate_skills_score (profile : FreelancerProfile) (job : Job) : Q :=
  let job_skills : gset string := list_to_set (required_skills job) in
  if decide (job_skills = ∅) then float_lit 1
  else
    let user_skills : gset string := list_to_set (skills profile) in
    if decide (user_skills = ∅) then float_lit 0
    else
      let matching_skills := user_skills ∩ job_skills in
      int_truediv (size matching_skills) (size job_skills).

(** The [for loc in profile.preferred_locations] loop; [true] when it
    leaves through [return 1.0]. *)
Fixpoint location_loop (job_loc : string) (locs : list string) : bool :=
  match locs with
  | [] => false
  | loc :: rest =>
      if str_in (lower loc) job_loc || str_in job_loc (lower loc) then true
      else location_loop job_loc rest
  end.

Definition _calculate_location_score (profile : FreelancerProfile) (job : Job) : Q :=
  match preferred_locations profile with
  | [] => float_lit (1 # 2)
  | _ =>
      let job_loc := lower (location job) in
      if location_loop job_loc (preferred_locations profile) then float_lit 1
      else if is_remote job && is_open_to_remote profile then float_lit 1
      else float_lit 0
  end.

Definition _calculate_type_score (profile : FreelancerProfile) (job : Job) : Q :=
  match preferred_project_types profile with
  | [] => float_lit (1 # 2)
  | _ =>
      if bool_decide (job_type job ∈ preferred_project_types profile)
      then float_lit 1
      else float_lit 0
  end.

Definition calculate_score (freelancer_profile : FreelancerProfile) (job : Job) : Q :=
  let score := float_lit 0 in
  let score :=
    fadd score (fmul (_calculate_skills_score freelancer_profile job)
                     (weights !!! "skills"%string)) in
  let score :=
    fadd score (fmul (_calculate_location_score freelancer_profile job)
                     (weights !!! "location"%string)) in
  let score :=
    fadd score (fmul (_calculate_type_score freelancer_profile job)
                     (weights !!! "job_type"%string)) in
  py_round score 2.

(** The threshold test [score > 0.1]. *)
Definition above_threshold (score : Q) : bool := fgt score (float_lit (1 # 10)).

(** The reason text with [int(score*100)] spliced in. *)
Definition reason_text (score : Q) : string :=
  ("Matched based on skills and preferences (Score: "
   +:+ NilZero.string_of_int (Z.to_int (py_int (fmul score (float_lit 100))))
   +:+ "%)")%string.

(** [JobRecommendation(user=user, job=job, score=score,
    algorithm_type='content_based', reason=...)]; the interaction flags
    take their defaults. *)
Definition new_recommendation (user : User) (job : Job) (score : Q) : JobRecommendation :=
  {| rec_user := user_id user;
     rec_job := job_id job;
     score := score;
     reason := reason_text score;
     algorithm_type := content_based;
     is_viewed := false;
     is_clicked := false;
     is_applied := false |}.

(** [Job.objects.filter(status='published').exclude(id__in=applied_job_ids)] *)
Definition candidate_jobs (applied_job_ids : list N) (all : list Job) : list Job :=
  List.filter
    (fun j => bool_decide (status j = published)
              && negb (bool_decide (job_id j ∈ applied_job_ids)))
    all.

(** The [for job in candidate_jobs] loop. *)
Fixpoint score_jobs (user : User) (profile : FreelancerProfile) (js : list Job)
  : list JobRecommendation :=
  match js with
  | [] => []
  | job :: rest =>
      let score := calculate_score profile job in
      if above_threshold score
      then new_recommendation user job score :: score_jobs user profile rest
      else score_jobs user profile rest
  end.

(** [filter(user=user, algorithm_type='content_based')] *)
Definition content_based_of (user : User) (r : JobRecommendation) : bool :=
  bool_decide (rec_user r = user_id user)
  && bool_decide (algorithm_type r = content_based).

Definition generate_recommendations (user : User) (limit : Z)
  : Db (list JobRecommendation) :=
  match freelancer_profile user with
  | None => mret []
  | Some profile =>
      let applied_job_ids := applications user in
      all ← all_jobs;
      let recommendations :=
        score_jobs user profile (candidate_jobs applied_job_ids all) in
      let recommendations := sort_by_score_desc recommendations in
      let top_recs := slice_to recommendations limit in
      delete_where (content_based_of user);;
      bulk_create top_recs;;
      mret top_recs
  end.
End RecommendationEngine.

Import PyFloat PyStr RecommendationEngine.

(* ------------------------------------------------------------------ *)
(** ** Notions used to state the properties *)

(** [a] occurs in [b]. *)
Definition substring_of (a b : string) : Prop :=
  exists pre post : string, b = (pre +:+ a +:+ post)%string.

(** [a] occurs in [b] when case is ignored. *)
Definition ci_substring (a b : string) : Prop :=
  substring_of (lower a) (lower b).

(** Some preferred location and the job location contain one another,
    ignoring case. *)
Definition location_matches (profile : FreelancerProfile) (job : Job) : Prop :=
  exists loc, In loc (preferred_locations profile) /\
              (ci_substring loc (location job) \/ ci_substring (location job) loc).

(** The user's content-based rows of the table, and all the other rows. *)
Definition batch_of (user : User) (t : list JobRecommendation) : list JobRecommendation :=
  List.filter (content_based_of user) t.

Definition others_of (user : User) (t : list JobRecommendation) : list JobRecommendation :=
  List.filter (fun r => negb (content_based_of user r)) t.

(** Scores never increase along the list. *)
Definition sorted_by_score_desc (l : list JobRecommendation) : Prop :=
  StronglySorted (fun a b => (score b <= score a)%Q) l.

(** The records that clear the threshold, ranked: the list the run
    truncates. *)
Definition ranked (user : User) (profile : FreelancerProfile) (w : World)
  : list JobRecommendation :=
  sort_by_score_desc
    (score_jobs user profile (candidate_jobs (applications user) (jobs w))).

(** The states of the recommendation table committed between [w] and [w']. *)
Definition committed_during (w w' : World) : list (list JobRecommendation) :=
  skipn (length (committed w)) (committed w').

(** The skills sub-score with names compared after case normalisation, as
    the specification words it. *)
Definition skills_score_case_normalized (profile : FreelancerProfile) (job : Job) : Q :=
  let R : gset string := list_to_set (List.map lower (required_skills job)) in
  let U : gset string := list_to_set (List.map lower (skills profile)) in
  if decide (R = ∅) then float_lit 1
  else if decide (U = ∅) then float_lit 0
  else int_truediv (size (R ∩ U)) (size R).

(** Atomic replacement as the specification words it: every state committed
    during the run shows the user's old batch or the complete new batch, and
    a run that raises leaves the table as it found it. *)
Definition replaced_atomically (user : User) (limit : Z) (w : World) : Prop :=
  let (res, w') := generate_recommendations user limit w in
  (forall s, In s (committed_during w w') ->
     batch_of user s = batch_of user (job_recommendations w) \/
     res = Returns (batch_of user s)) /\
  (res = Raises -> job_recommendations w' = job_recommendations w).

(** Empty result for a non-positive limit, as the specification words it. *)
Definition empty_when_limit_not_positive (user : User) (limit : Z) (w : World) : Prop :=
  (limit <= 0)%Z -> fst (generate_recommendations user limit w) = Returns [].

(** No write statement still to come raises. *)
Definition no_fault (w : World) : Prop :=
  forall b, In b (write_faults w) -> b = false.

(** The world after a write statement that turned the table into [t]. *)
Definition after_write (t : list JobRecommendation) (w : World) : World :=
  {| jobs := jobs w;
     job_recommendations := t;
     committed := committed w ++ [t];
     write_faults := tail (write_faults w) |}.

(** The world after a write statement that raised. *)
Definition after_fault (w : World) : World :=
  {| jobs := jobs w;
     job_recommendations := job_recommendations w;
     committed := committed w;
     write_faults := tail (write_faults w) |}.

(** Whether the [n]-th write statement still to come raises. *)
Definition raises_at (n : nat) (w : World) : bool := nth n (write_faults w) false.

(* ------------------------------------------------------------------ *)
(** ** The callers of the engine: tasks.py and views.py *)

(** A row of the user table as the task reads it: the user with its
    relations, and its [email]. *)
Record Account := {
  account_user : User;
  email : string
}.

(** What the Celery task returns.  Each constructor stands for one of its
    three result strings and carries the values spliced into it:
    "Generated {count} recommendations for user {email}",
    "User {user_id} not found" and "Error generating recommendations: ...". *)
Inductive TaskReport :=
| Generated (count : nat) (user_email : string)
| UserNotFound (id : N)
| ErrorGenerating.

(** [tasks.generate_user_recommendations(user_id)]: [users] is the user
    table by primary key.  The engine runs with its default [limit=10]; the
    [except Exception] clause turns whatever the engine raises into a
    result. *)
Definition generate_user_recommendations (users : gmap N Account) (id : N)
  : Db TaskReport :=
  fun w =>
    match users !! id with
    | None => (Returns (UserNotFound id), w)
    | Some a =>
        match generate_recommendations (account_user a) 10 w with
        | (Returns recommendations, w') =>
            (Returns (Generated (length recommendations) (email a)), w')
        | (Raises, w') => (Returns ErrorGenerating, w')
        end
    end.

(** A lazy queryset on the recommendation table: the filter, and the ordering
    the framework applies when it evaluates the queryset. *)
Record QuerySet := {
  where_ : JobRecommendation -> bool;
  order_by : list string
}.

(** [Meta.ordering] of [JobRecommendation]. *)
Definition default_ordering : list string := ["-score"; "-created_at"]%string.

(** [queryset.exists()] *)
Definition exists_ (queryset : QuerySet) : Db bool :=
  fun w => (Returns (existsb (where_ queryset) (job_recommendations w)), w).

(** [filter(user=self.request.user)] *)
Definition owned_by (user : User) (r : JobRecommendation) : bool :=
  bool_decide (rec_user r = user_id user).

(** [super().get_queryset().filter(user=self.request.user)] *)
Definition user_queryset (user : User) : QuerySet :=
  {| where_ := owned_by user; order_by := default_ordering |}.

(** [JobRecommendationViewSet.get_queryset]; what it returns is the lazy
    queryset, evaluated later by the framework. *)
Definition get_queryset (request_user : User) : Db QuerySet :=
  let queryset := user_queryset request_user in
  found ← exists_ queryset;
  if negb found then
    generate_recommendations request_user 10;;
    mret (user_queryset request_user)
  else mret queryset.

(** The rows of the table of [w] that a queryset matches, in no particular
    order: evaluating the queryset yields these rows arranged by
    [order_by]. *)
Definition matched_rows (queryset : QuerySet) (w : World) : list JobRecommendation :=
  List.filter (where_ queryset) (job_recommendations w).

(** The body of [calculate_score] as a function of the three sub-scores. *)
Definition weighted_score (s l t : Q) : Q :=
  py_round
    (fadd (fadd (fadd (float_lit 0) (fmul s (float_lit (6 # 10))))
                (fmul l (float_lit (2 # 10))))
          (fmul t (float_lit (2 # 10)))) 2.

(** [int(score*100)], the percentage shown in the reason text. *)
Definition reason_percent (score : Q) : Z := py_int (fmul score (float_lit 100)).

(** Rows with a given score, in list order. *)
Definition with_score (s : Q) (l : list JobRecommendation) : list JobRecommendation :=
  List.filter (fun r => Qeq_bool (score r) s) l.

(** The percentage the reason text shows for a score of n/100. *)
Definition shown_percent (n : Z) : Z :=
  if (n =? 29)%Z || (n =? 57)%Z || (n =? 58)%Z then (n - 1)%Z else n.

(* ------------------------------------------------------------------ *)
(** ** Sample data *)

Definition ada_profile : FreelancerProfile :=
  {| preferred_project_types := ["contract"%string];
     preferred_locations := ["Lagos"%string];
     is_open_to_remote := false;
     skills := ["Python"%string] |}.

(** No preferences and no skills recorded. *)
Definition blank_profile : FreelancerProfile :=
  {| preferred_project_types := [];
     preferred_locations := [];
     is_open_to_remote := true;
     skills := [] |}.

(** Prefers Lagos, takes remote work, spells the skill in lower case. *)
Definition remote_profile : FreelancerProfile :=
  {| preferred_project_types := ["contract"%string];
     preferred_locations := ["Lagos"%string];
     is_open_to_remote := true;
     skills := ["python"%string] |}.

Definition ada : User :=
  {| user_id := 1; freelancer_profile := Some ada_profile; applications := [4%N] |}.

Definition guest : User :=
  {| user_id := 2; freelancer_profile := None; applications := [] |}.

Definition job_lagos_python : Job :=
  {| job_id := 1; location := "Lagos, Nigeria"; is_remote := false;
     job_type := "contract"; status := published;
     required_skills := ["Python"%string] |}.

Definition job_six_skills : Job :=
  {| job_id := 2; location := "Abuja"; is_remote := false;
     job_type := "full_time"; status := published;
     required_skills := ["Python"; "Go"; "Rust"; "SQL"; "Docker"; "Linux"]%string |}.

Definition job_lagos_go : Job :=
  {| job_id := 3; location := "lagos"; is_remote := false;
     job_type := "full_time"; status := published;
     required_skills := ["Go"%string] |}.

Definition job_applied : Job :=
  {| job_id := 4; location := "Lagos"; is_remote := false;
     job_type := "contract"; status := published;
     required_skills := ["Python"%string] |}.

Definition job_draft : Job :=
  {| job_id := 5; location := "Lagos"; is_remote := false;
     job_type := "contract"; status := draft;
     required_skills := ["Python"%string] |}.

Definition job_abuja_two : Job :=
  {| job_id := 6; location := "Abuja"; is_remote := false;
     job_type := "contract"; status := published;
     required_skills := ["Python"; "Go"]%string |}.

Definition job_remote_open : Job :=
  {| job_id := 7; location := "Nairobi"; is_remote := true;
     job_type := "contract"; status := published;
     required_skills := [] |}.

(** Rows already in the table: an old content-based row of [ada], a
    collaborative row of hers, and a content-based row of another user. *)
Definition old_row : JobRecommendation :=
  {| rec_user := 1; rec_job := 9; score := float_lit (9 # 10);
     reason := "Matched based on skills and preferences (Score: 90%)";
     algorithm_type := content_based;
     is_viewed := true; is_clicked := false; is_applied := false |}.

Definition collaborative_row : JobRecommendation :=
  {| rec_user := 1; rec_job := 9; score := float_lit (5 # 100);
     reason := "People like you applied"; algorithm_type := collaborative;
     is_viewed := false; is_clicked := false; is_applied := false |}.

Definition foreign_row : JobRecommendation :=
  {| rec_user := 2; rec_job := 1; score := float_lit (4 # 10);
     reason := "Matched based on skills and preferences (Score: 40%)";
     algorithm_type := content_based;
     is_viewed := false; is_clicked := true; is_applied := false |}.

Definition sample_world (faults : list bool) : World :=
  {| jobs := [job_six_skills; job_lagos_go; job_lagos_python; job_applied;
              job_draft; job_abuja_two];
     job_recommendations := [old_row; collaborative_row; foreign_row];
     committed := [];
     write_faults := faults |}.

(** Three of the ten skills of [job_ten_skills], Lagos and contract work
    preferred. *)
Definition dev_profile : FreelancerProfile :=
  {| preferred_project_types := ["contract"%string];
     preferred_locations := ["Lagos"%string];
     is_open_to_remote := false;
     skills := ["Python"; "Go"; "SQL"]%string |}.

Definition dev : User :=
  {| user_id := 3; freelancer_profile := Some dev_profile; applications := [] |}.

Definition job_ten_skills : Job :=
  {| job_id := 8; location := "Lagos"; is_remote := false;
     job_type := "contract"; status := published;
     required_skills := ["Python"; "Go"; "SQL"; "Rust"; "Docker"; "Linux";
                         "Java"; "Kotlin"; "Swift"; "Scala"]%string |}.

Definition job_no_location : Job :=
  {| job_id := 10; location := ""; is_remote := false;
     job_type := "full_time"; status := published;
     required_skills := ["Go"%string] |}.

Definition sample_users : gmap N Account :=
  {[ 1%N := {| account_user := ada; email := "ada@example.com" |};
     2%N := {| account_user := guest; email := "guest@example.com" |} ]}.




(* ------------------------------------------------------------------ *)
(** ** Facts about binary64 rounding *)

Section PyFloatFacts.
#[local] Open Scope Q_scope.

Lemma rne_mono x y : x <= y -> (rne x <= rne y)%Z.
Proof.
  intros Hxy. pose proof (Qfloor_resp_le _ _ Hxy) as Hf.
  pose proof (Qfloor_le x) as Hx1. pose proof (Qlt_floor x) as Hx2.
  pose proof (Qfloor_le y) as Hy1. pose proof (Qlt_floor y) as Hy2.
  rewrite inject_Z_plus in Hx2, Hy2.
  unfold rne.
  destruct (Z.eq_dec (Qfloor x) (Qfloor y)) as [E|E].
  - rewrite <- E in *.
    destruct (Qcompare_spec (x - inject_Z (Qfloor x)) (1#2)),
             (Qcompare_spec (y - inject_Z (Qfloor x)) (1#2));
      destruct (Z.even (Qfloor x)); try lia; exfalso; lra.
  - destruct (Qcompare (x - inject_Z (Qfloor x)) (1#2)),
             (Qcompare (y - inject_Z (Qfloor y)) (1#2));
      destruct (Z.even (Qfloor x)); destruct (Z.even (Qfloor y)); lia.
Qed.

Lemma rne_Z z : rne (inject_Z z) = z.
Proof.
  unfold rne. rewrite Qfloor_Z.
  destruct (Qcompare_spec (inject_Z z - inject_Z z) (1#2)); try lra; reflexivity.
Qed.

#[global] Instance rne_proper : Proper (Qeq ==> eq) rne.
Proof.
  intros x y E. apply Z.le_antisymm; apply rne_mono; rewrite E; apply Qle_refl.
Qed.
Lemma pow2_pos e : 0 < 2 ^ e.
Proof. apply Qpower_0_lt. reflexivity. Qed.

Lemma pow2_add a b : 2 ^ (a + b) == 2 ^ a * 2 ^ b.
Proof. apply Qpower_plus. discriminate. Qed.

Lemma pow2_succ a : 2 ^ (a + 1) == 2 * 2 ^ a.
Proof. rewrite pow2_add. change (2 ^ 1) with 2. ring. Qed.

Lemma pow2_le a b : (a <= b)%Z -> 2 ^ a <= 2 ^ b.
Proof. intros H. apply Qpower_le_compat_l; [exact H | discriminate]. Qed.

Lemma pow2_lt a b : (a < b)%Z -> 2 ^ a < 2 ^ b.
Proof. intros H. apply Qpower_lt_compat_l; [exact H | reflexivity]. Qed.

Lemma pow2_lt_inv a b : 2 ^ a < 2 ^ b -> (a < b)%Z.
Proof.
  intros H. destruct (Z_lt_le_dec a b) as [L|L]; [exact L|].
  apply pow2_le in L. lra.
Qed.

Lemma pow2_Z n : (0 <= n)%Z -> inject_Z (2 ^ n) == 2 ^ n.
Proof. intros H. apply (Zpower_Qpower 2 n H). Qed.

Lemma Zlog2_Q n : (0 < n)%Z ->
  2 ^ Z.log2 n <= inject_Z n /\ inject_Z n < 2 * 2 ^ Z.log2 n.
Proof.
  intros H. destruct (Z.log2_spec n H) as [L U].
  pose proof (Z.log2_nonneg n) as Hn.
  rewrite <- pow2_succ, <- !pow2_Z by lia.
  rewrite <- Zle_Qle, <- Zlt_Qlt. split; [exact L | exact U].
Qed.

Lemma ilog2_spec x : 0 < x -> 2 ^ ilog2 x <= x /\ x < 2 ^ (ilog2 x + 1).
Proof.
  intros Hx. unfold ilog2.
  assert (Hp : (0 < Qnum x)%Z) by (destruct x as [p q]; unfold Qlt in Hx; simpl in *; lia).
  destruct (Zlog2_Q (Qnum x) Hp) as [Pl Pu].
  destruct (Zlog2_Q (Zpos (Qden x)) eq_refl) as [Dl Du].
  set (lp := Z.log2 (Qnum x)) in *. set (lq := Z.log2 (Zpos (Qden x))) in *.
  assert (Ex : x * inject_Z (Zpos (Qden x)) == inject_Z (Qnum x)).
  { destruct x as [p q]. unfold Qeq, Qmult, inject_Z. simpl. lia. }
  pose proof (pow2_pos lp) as Ap. pose proof (pow2_pos lq) as Bp.
  pose proof (pow2_pos (lp - lq)) as Cp.
  assert (Ed : 2 ^ (lp - lq) * 2 ^ lq == 2 ^ lp).
  { rewrite <- pow2_add. replace (lp - lq + lq)%Z with lp by lia. reflexivity. }
  destruct (Qle_bool (2 ^ (lp - lq)) x) eqn:B.
  - apply Qle_bool_iff in B. split; [exact B|].
    rewrite pow2_succ. nra.
  - assert (B' : x < 2 ^ (lp - lq)).
    { apply Qnot_le_lt. intros C. apply Qle_bool_iff in C. congruence. }
    replace (lp - lq - 1 + 1)%Z with (lp - lq)%Z by lia. split; [|exact B'].
    pose proof (pow2_succ (lp - lq - 1)) as S1.
    replace (lp - lq - 1 + 1)%Z with (lp - lq)%Z in S1 by lia.
    pose proof (pow2_pos (lp - lq - 1)). nra.
Qed.

Lemma ilog2_unique x e : 2 ^ e <= x -> x < 2 ^ (e + 1) -> ilog2 x = e.
Proof.
  intros L U.
  assert (Hx : 0 < x) by (pose proof (pow2_pos e); lra).
  destruct (ilog2_spec x Hx) as [L' U'].
  assert ((e < ilog2 x + 1)%Z) by (apply pow2_lt_inv; lra).
  assert ((ilog2 x < e + 1)%Z) by (apply pow2_lt_inv; lra).
  lia.
Qed.

Lemma ilog2_mono x y : 0 < x -> x <= y -> (ilog2 x <= ilog2 y)%Z.
Proof.
  intros Hx Hxy.
  destruct (ilog2_spec x Hx) as [L _].
  destruct (ilog2_spec y) as [_ U]; [lra|].
  assert ((ilog2 x < ilog2 y + 1)%Z) by (apply pow2_lt_inv; lra).
  lia.
Qed.

Lemma fexp_ge_emin x : (-1074 <= fexp x)%Z.
Proof. unfold fexp. lia. Qed.

Lemma fexp_proper_pos x y : 0 < x -> x == y -> fexp x = fexp y.
Proof.
  intros Hx E. unfold fexp. f_equal. f_equal.
  destruct (ilog2_spec x Hx) as [L U].
  symmetry. apply ilog2_unique; rewrite <- E; assumption.
Qed.

#[global] Instance round_proper : Proper (Qeq ==> Qeq) round_binary64.
Proof. intros x y E. unfold round_binary64. rewrite (Qred_complete _ _ E). reflexivity. Qed.

Lemma round_pos_eq x : 0 < x ->
  round_binary64 x == inject_Z (rne (x / 2 ^ fexp x)) * 2 ^ fexp x.
Proof.
  intros Hx. unfold round_binary64. rewrite Qred_correct.
  assert (E : Qabs (Qred x) == x).
  { rewrite Qred_correct. apply Qabs_pos. lra. }
  rewrite (fexp_proper_pos (Qabs (Qred x)) x) by (rewrite ?E; lra || exact E).
  rewrite Qred_correct. reflexivity.
Qed.

Lemma round_0 x : x == 0 -> round_binary64 x == 0.
Proof. intros E. rewrite E. reflexivity. Qed.

Lemma div_pow2_grid m g e : (e <= g)%Z ->
  inject_Z m * 2 ^ g / 2 ^ e == inject_Z (m * 2 ^ (g - e)).
Proof.
  intros H. rewrite inject_Z_mult, pow2_Z by lia.
  replace g with ((g - e) + e)%Z at 1 by lia. rewrite pow2_add.
  pose proof (pow2_pos e). field. lra.
Qed.

Lemma mul_pow2_grid m g e : (e <= g)%Z ->
  inject_Z (m * 2 ^ (g - e)) * 2 ^ e == inject_Z m * 2 ^ g.
Proof.
  intros H. rewrite inject_Z_mult, pow2_Z by lia.
  replace g with ((g - e) + e)%Z at 2 by lia. rewrite pow2_add. ring.
Qed.

Lemma Qdiv_le_pow2 x y e : x <= y -> x / 2 ^ e <= y / 2 ^ e.
Proof.
  intros H. pose proof (pow2_pos e) as P.
  apply Qmult_le_compat_r; [exact H|].
  apply Qlt_le_weak, Qinv_lt_0_compat, P.
Qed.

Lemma round_grid_le x m g : 0 < x -> (fexp x <= g)%Z ->
  x <= inject_Z m * 2 ^ g -> round_binary64 x <= inject_Z m * 2 ^ g.
Proof.
  intros Hx Hg Hle. rewrite (round_pos_eq x Hx).
  rewrite <- (mul_pow2_grid m g (fexp x) Hg).
  apply Qmult_le_compat_r; [|apply Qlt_le_weak, pow2_pos].
  rewrite <- Zle_Qle. rewrite <- (rne_Z (m * 2 ^ (g - fexp x))).
  apply rne_mono. rewrite <- div_pow2_grid by exact Hg.
  apply Qdiv_le_pow2, Hle.
Qed.

Lemma round_grid_ge x m g : 0 < x -> (fexp x <= g)%Z ->
  inject_Z m * 2 ^ g <= x -> inject_Z m * 2 ^ g <= round_binary64 x.
Proof.
  intros Hx Hg Hle. rewrite (round_pos_eq x Hx).
  rewrite <- (mul_pow2_grid m g (fexp x) Hg).
  apply Qmult_le_compat_r; [|apply Qlt_le_weak, pow2_pos].
  rewrite <- Zle_Qle. rewrite <- (rne_Z (m * 2 ^ (g - fexp x))).
  apply rne_mono. rewrite <- div_pow2_grid by exact Hg.
  apply Qdiv_le_pow2, Hle.
Qed.

Lemma round_nonneg x : 0 <= x -> 0 <= round_binary64 x.
Proof.
  intros Hx. destruct (Qlt_le_dec 0 x) as [P|P].
  - pose proof (round_grid_ge x 0 (fexp x) P (Z.le_refl _)) as H.
    assert (Z0 : inject_Z 0 * 2 ^ fexp x == 0) by ring.
    rewrite Z0 in H. apply H, Qlt_le_weak, P.
  - rewrite round_0 by lra. lra.
Qed.

Lemma round_mono x y : 0 <= x -> x <= y -> round_binary64 x <= round_binary64 y.
Proof.
  intros Hx Hxy. destruct (Qlt_le_dec 0 x) as [P|P].
  2:{ rewrite (round_0 x) by lra. apply round_nonneg. lra. }
  assert (Py : 0 < y) by lra.
  pose proof (ilog2_mono x y P Hxy) as HL.
  destruct (Z.eq_dec (fexp x) (fexp y)) as [E|E].
  - rewrite (round_pos_eq x P), (round_pos_eq y Py), E.
    apply Qmult_le_compat_r; [|apply Qlt_le_weak, pow2_pos].
    rewrite <- Zle_Qle. apply rne_mono, Qdiv_le_pow2, Hxy.
  - assert (Hlt : (fexp x < fexp y)%Z) by (unfold fexp in *; lia).
    assert (Hy : fexp y = (ilog2 y - 52)%Z) by (unfold fexp in *; lia).
    assert (Hs : (ilog2 x + 1 <= ilog2 y)%Z) by (unfold fexp in *; lia).
    destruct (ilog2_spec x P) as [_ Ux]. destruct (ilog2_spec y Py) as [Ly _].
    pose proof (pow2_le _ _ Hs) as Hsep.
    apply Qle_trans with (inject_Z 1 * 2 ^ ilog2 y).
    + apply round_grid_le; [exact P | unfold fexp in *; lia |].
      change (inject_Z 1) with 1. lra.
    + apply round_grid_ge; [exact Py | lia |].
      change (inject_Z 1) with 1. lra.
Qed.

Lemma round_on_grid c m g : 0 < c -> (fexp c <= g)%Z ->
  c == inject_Z m * 2 ^ g -> round_binary64 c == c.
Proof.
  intros Hc Hg E. apply Qle_antisym.
  - rewrite E at 2. apply round_grid_le; [exact Hc | exact Hg | rewrite E; apply Qle_refl].
  - rewrite E at 1. apply round_grid_ge; [exact Hc | exact Hg | rewrite E; apply Qle_refl].
Qed.

Lemma round_idem x : 0 <= x -> round_binary64 (round_binary64 x) == round_binary64 x.
Proof.
  intros Hx. destruct (Qlt_le_dec 0 x) as [P|P].
  2:{ rewrite (round_0 x) by lra. reflexivity. }
  pose proof (round_nonneg x Hx) as Hr.
  destruct (Qlt_le_dec 0 (round_binary64 x)) as [Pr|Pr].
  2:{ assert (Z0 : round_binary64 x == 0) by lra. rewrite Z0. reflexivity. }
  destruct (ilog2_spec x P) as [Lx Ux].
  set (e := fexp x) in *.
  assert (He : (ilog2 x - 52 <= e)%Z) by (unfold e, fexp; lia).
  assert (Hm : (-1074 <= e)%Z) by (apply fexp_ge_emin).
  assert (Hup : round_binary64 x <= inject_Z 1 * 2 ^ (e + 53)).
  { apply round_grid_le; [exact P | fold e; lia |].
    change (inject_Z 1) with 1.
    assert (2 ^ (ilog2 x + 1) <= 2 ^ (e + 53)) by (apply pow2_le; lia). lra. }
  change (inject_Z 1) with 1 in Hup.
  destruct (Qlt_le_dec (round_binary64 x) (2 ^ (e + 53))) as [Lt|Ge].
  - apply (round_on_grid _ (rne (x / 2 ^ e)) e); [exact Pr | | apply round_pos_eq, P].
    destruct (ilog2_spec _ Pr) as [Lr _].
    assert ((ilog2 (round_binary64 x) < e + 53)%Z) by (apply pow2_lt_inv; lra).
    unfold fexp. lia.
  - apply (round_on_grid _ 1 (e + 53)); [exact Pr | | change (inject_Z 1) with 1; lra].
    assert (ilog2 (round_binary64 x) = (e + 53)%Z).
    { apply ilog2_unique; [lra|]. rewrite pow2_succ. pose proof (pow2_pos (e + 53)). lra. }
    unfold fexp. lia.
Qed.

End PyFloatFacts.

(* ------------------------------------------------------------------ *)
(** ** Facts about the float operations *)

Section FloatOps.
#[local] Open Scope Q_scope.

#[global] Instance fadd_proper : Proper (Qeq ==> Qeq ==> Qeq) fadd.
Proof. intros x x' Ex y y' Ey. unfold fadd. rewrite Ex, Ey. reflexivity. Qed.

#[global] Instance fmul_proper : Proper (Qeq ==> Qeq ==> Qeq) fmul.
Proof. intros x x' Ex y y' Ey. unfold fmul. rewrite Ex, Ey. reflexivity. Qed.

#[global] Instance py_round_proper : Proper (Qeq ==> eq ==> Qeq) py_round.
Proof. intros x x' Ex n n' <-. unfold py_round. rewrite Ex. reflexivity. Qed.

Lemma float_lit_0 : float_lit 0 == 0.
Proof. reflexivity. Qed.

Lemma float_lit_1 : float_lit 1 == 1.
Proof. reflexivity. Qed.

Lemma float_lit_half : float_lit (1 # 2) == 1 # 2.
Proof. reflexivity. Qed.

Lemma float_lit_tenth_lt_fifth : float_lit (1 # 10) < float_lit (2 # 10).
Proof. vm_compute. reflexivity. Qed.

Lemma float_lit_nonneg q : 0 <= q -> 0 <= float_lit q.
Proof. apply round_nonneg. Qed.

Lemma float_lit_idem q : 0 <= q -> round_binary64 (float_lit q) == float_lit q.
Proof. apply round_idem. Qed.

Lemma fadd_nonneg x y : 0 <= x -> 0 <= y -> 0 <= fadd x y.
Proof. intros Hx Hy. apply round_nonneg. lra. Qed.

Lemma fadd_mono x x' y y' :
  0 <= x -> x <= x' -> 0 <= y -> y <= y' -> fadd x y <= fadd x' y'.
Proof. intros. apply round_mono; lra. Qed.

Lemma fmul_nonneg x y : 0 <= x -> 0 <= y -> 0 <= fmul x y.
Proof. intros Hx Hy. apply round_nonneg. apply Qmult_le_0_compat; assumption. Qed.

Lemma fmul_mono x x' y y' :
  0 <= x -> x <= x' -> 0 <= y -> y <= y' -> fmul x y <= fmul x' y'.
Proof.
  intros Hx Hxx Hy Hyy. apply round_mono.
  - apply Qmult_le_0_compat; assumption.
  - nra.
Qed.

Lemma fadd_0_l x : 0 <= x -> fadd (float_lit 0) (round_binary64 x) == round_binary64 x.
Proof.
  intros Hx. unfold fadd. rewrite float_lit_0, Qplus_0_l. apply round_idem, Hx.
Qed.

Lemma fmul_comm x y : fmul x y == fmul y x.
Proof. unfold fmul. rewrite Qmult_comm. reflexivity. Qed.

Lemma int_truediv_range k n :
  (k <= n)%nat -> (0 < n)%nat -> 0 <= int_truediv k n <= 1.
Proof.
  intros Hk Hn. unfold int_truediv.
  set (q := inject_Z (Z.of_nat k) / inject_Z (Z.of_nat n)).
  assert (Hnq : 0 < inject_Z (Z.of_nat n)).
  { change 0 with (inject_Z 0). rewrite <- Zlt_Qlt. lia. }
  assert (Hkq : 0 <= inject_Z (Z.of_nat k)).
  { change 0 with (inject_Z 0). rewrite <- Zle_Qle. lia. }
  assert (Hkn : inject_Z (Z.of_nat k) <= inject_Z (Z.of_nat n)).
  { rewrite <- Zle_Qle. lia. }
  assert (Hq : 0 <= q <= 1).
  { unfold q. split.
    - apply Qle_shift_div_l; [exact Hnq | lra].
    - apply Qle_shift_div_r; [exact Hnq | lra]. }
  split.
  - apply round_nonneg. apply Hq.
  - rewrite <- float_lit_1. apply round_mono; apply Hq.
Qed.

Lemma py_round_2_decimal x :
  0 <= x <= 1 ->
  exists n : Z, (0 <= n <= 100)%Z /\ py_round x 2 == float_lit (inject_Z n / 100).
Proof.
  intros [H0 H1]. exists (rne (x * 100)). split.
  - split.
    + apply (Z.le_trans _ (rne (inject_Z 0))); [rewrite rne_Z; lia |].
      apply rne_mono. change (inject_Z 0) with 0. lra.
    + apply (Z.le_trans _ (rne (inject_Z 100))); [| rewrite rne_Z; lia].
      apply rne_mono. change (inject_Z 100) with 100. lra.
  - unfold py_round, float_lit.
    change (inject_Z (10 ^ Z.of_nat 2)) with 100. apply Qeq_refl.
Qed.

Lemma float_lit_percent_range n :
  (0 <= n <= 100)%Z -> 0 <= float_lit (inject_Z n / 100) <= 1.
Proof.
  intros [H0 H1].
  assert (Hq : 0 <= inject_Z n / 100 <= 1).
  { rewrite Zle_Qle in H0, H1. change (inject_Z 0) with 0 in H0.
    change (inject_Z 100) with 100 in H1. split.
    - apply Qle_shift_div_l; [reflexivity | lra].
    - apply Qle_shift_div_r; [reflexivity | lra]. }
  unfold float_lit. split.
  - apply round_nonneg, Hq.
  - rewrite <- float_lit_1. apply round_mono; apply Hq.
Qed.

Lemma fgt_true x y : fgt x y = true <-> y < x.
Proof.
  unfold fgt. rewrite negb_true_iff. split.
  - intros H. apply Qnot_le_lt. intros C. apply Qle_bool_iff in C. congruence.
  - intros H. destruct (Qle_bool x y) eqn:E; [|reflexivity].
    apply Qle_bool_iff in E. lra.
Qed.

Lemma fgt_false x y : fgt x y = false <-> x <= y.
Proof.
  unfold fgt. rewrite negb_false_iff. apply Qle_bool_iff.
Qed.

End FloatOps.

(* ------------------------------------------------------------------ *)
(** ** Sets of skill names *)

Lemma list_to_set_empty_iff (l : list string) :
  (list_to_set l : gset string) = ∅ <-> l = [].
Proof.
  split.
  - destruct l as [|x l]; [reflexivity|]. intros H.
    assert (Hx : x ∈ (list_to_set (x :: l) : gset string)) by set_solver.
    rewrite H in Hx. set_solver.
  - intros ->. reflexivity.
Qed.

Lemma size_list_to_set_names (l : list string) :
  size (list_to_set l : gset string) = length (remove_dups l).
Proof.
  rewrite <- (size_list_to_set (C := gset string) (remove_dups l))
    by apply NoDup_remove_dups.
  f_equal. apply set_eq. intros x.
  rewrite !elem_of_list_to_set, elem_of_remove_dups. reflexivity.
Qed.

Lemma size_common_names (U R : list string) :
  size ((list_to_set U : gset string) ∩ list_to_set R) =
  length (List.filter (fun r => bool_decide (r ∈ U)) (remove_dups R)).
Proof.
  rewrite <- (size_list_to_set (C := gset string)).
  - f_equal. apply set_eq. intros x.
    rewrite elem_of_intersection, !elem_of_list_to_set.
    rewrite (list_elem_of_In (List.filter _ _) x), filter_In.
    rewrite <- (list_elem_of_In (remove_dups R) x), elem_of_remove_dups.
    rewrite bool_decide_eq_true. tauto.
  - apply NoDup_ListNoDup, List.NoDup_filter, NoDup_ListNoDup, NoDup_remove_dups.
Qed.

Lemma common_names_le (U R : list string) :
  (length (List.filter (fun r => bool_decide (r ∈ U)) (remove_dups R))
   <= length (remove_dups R))%nat.
Proof. apply filter_length_le. Qed.

(* ------------------------------------------------------------------ *)
(** ** The scoring function *)

Section Scoring.
#[local] Open Scope Q_scope.

Lemma weights_skills : weights !!! "skills"%string = float_lit (6 # 10).
Proof. vm_compute. reflexivity. Qed.

Lemma weights_location : weights !!! "location"%string = float_lit (2 # 10).
Proof. vm_compute. reflexivity. Qed.

Lemma weights_job_type : weights !!! "job_type"%string = float_lit (2 # 10).
Proof. vm_compute. reflexivity. Qed.

Lemma skills_score_range profile job :
  0 <= _calculate_skills_score profile job <= 1.
Proof.
  unfold _calculate_skills_score.
  destruct (decide _) as [|HR]; [rewrite float_lit_1; lra|].
  destruct (decide _) as [|HU]; [rewrite float_lit_0; lra|].
  apply int_truediv_range.
  - apply subseteq_size, intersection_subseteq_r.
  - assert (size (list_to_set (required_skills job) : gset string) <> 0%nat).
    { apply size_non_empty_iff. intros E. apply HR. apply leibniz_equiv, E. }
    lia.
Qed.

Lemma location_score_values profile job :
  _calculate_location_score profile job == 0 \/
  _calculate_location_score profile job == 1 # 2 \/
  _calculate_location_score profile job == 1.
Proof.
  unfold _calculate_location_score.
  destruct (preferred_locations profile); [right; left; reflexivity|].
  destruct (location_loop _ _); [right; right; reflexivity|].
  destruct (_ && _); [right; right; reflexivity | left; reflexivity].
Qed.

Lemma type_score_values profile job :
  _calculate_type_score profile job == 0 \/
  _calculate_type_score profile job == 1 # 2 \/
  _calculate_type_score profile job == 1.
Proof.
  unfold _calculate_type_score.
  destruct (preferred_project_types profile); [right; left; reflexivity|].
  destruct (bool_decide _); [right; right; reflexivity | left; reflexivity].
Qed.

Lemma location_score_range profile job :
  0 <= _calculate_location_score profile job <= 1.
Proof. destruct (location_score_values profile job) as [E|[E|E]]; rewrite E; lra. Qed.

Lemma type_score_range profile job :
  0 <= _calculate_type_score profile job <= 1.
Proof. destruct (type_score_values profile job) as [E|[E|E]]; rewrite E; lra. Qed.

(** The weighted sum before rounding stays within [0, 1]. *)
Lemma weighted_sum_range s l t :
  0 <= s <= 1 -> 0 <= l <= 1 -> 0 <= t <= 1 ->
  0 <= fadd (fadd (fadd (float_lit 0) (fmul s (float_lit (6 # 10))))
                  (fmul l (float_lit (2 # 10))))
            (fmul t (float_lit (2 # 10))) <= 1.
Proof.
  intros [Hs0 Hs1] [Hl0 Hl1] [Ht0 Ht1].
  assert (H6 : 0 <= float_lit (6 # 10)) by (apply float_lit_nonneg; lra).
  assert (H2 : 0 <= float_lit (2 # 10)) by (apply float_lit_nonneg; lra).
  assert (Z0 : 0 <= float_lit 0) by (rewrite float_lit_0; lra).
  pose proof (fmul_nonneg s _ Hs0 H6) as A. pose proof (fmul_nonneg l _ Hl0 H2) as B.
  pose proof (fmul_nonneg t _ Ht0 H2) as C.
  pose proof (fadd_nonneg _ _ Z0 A) as S1.
  pose proof (fadd_nonneg _ _ S1 B) as S2.
  split.
  - apply fadd_nonneg; assumption.
  - apply Qle_trans with
      (fadd (fadd (fadd (float_lit 0) (fmul 1 (float_lit (6 # 10))))
                  (fmul 1 (float_lit (2 # 10))))
            (fmul 1 (float_lit (2 # 10)))).
    + apply fadd_mono; [exact S2 | | assumption |].
      * apply fadd_mono; [exact S1 | | assumption |].
        -- apply fadd_mono; [assumption | lra | assumption |].
           apply fmul_mono; [assumption | assumption | assumption | lra].
        -- apply fmul_mono; [assumption | assumption | assumption | lra].
      * apply fmul_mono; [assumption | assumption | assumption | lra].
    + vm_compute. discriminate.
Qed.

(** C2. The final score is the sum of the three sub-scores weighted 0.6, 0.2
    and 0.2, evaluated in float arithmetic and rounded to two decimals; each
    sub-score lies in [0, 1]; the final score lies in [0, 1] and is the float
    of a decimal [n/100] with [0 <= n <= 100]. *)
Theorem calculate_score_weighted_rounded profile job :
  let s := _calculate_skills_score profile job in
  let l := _calculate_location_score profile job in
  let t := _calculate_type_score profile job in
  0 <= s <= 1 /\ 0 <= l <= 1 /\ 0 <= t <= 1 /\
  calculate_score profile job ==
    py_round (fadd (fadd (fmul (float_lit (6 # 10)) s) (fmul (float_lit (2 # 10)) l))
                   (fmul (float_lit (2 # 10)) t)) 2 /\
  0 <= calculate_score profile job <= 1 /\
  exists n : Z, (0 <= n <= 100)%Z /\
                calculate_score profile job == float_lit (inject_Z n / 100).
Proof.
  intros s l t.
  pose proof (skills_score_range profile job) as Hs.
  pose proof (location_score_range profile job) as Hl.
  pose proof (type_score_range profile job) as Ht.
  fold s in Hs. fold l in Hl. fold t in Ht.
  assert (E : calculate_score profile job =
              py_round (fadd (fadd (fadd (float_lit 0) (fmul s (float_lit (6 # 10))))
                                   (fmul l (float_lit (2 # 10))))
                             (fmul t (float_lit (2 # 10)))) 2).
  { unfold calculate_score. rewrite weights_skills, weights_location, weights_job_type.
    reflexivity. }
  pose proof (weighted_sum_range s l t Hs Hl Ht) as Hsum.
  destruct (py_round_2_decimal _ Hsum) as (n & Hn & En).
  repeat split; try tauto.
  - rewrite E. apply py_round_proper; [|reflexivity].
    assert (H6 : 0 <= float_lit (6 # 10)) by (apply float_lit_nonneg; lra).
    assert (F : fadd (float_lit 0) (fmul s (float_lit (6 # 10)))
                == fmul (float_lit (6 # 10)) s).
    { rewrite (fmul_comm (float_lit (6 # 10)) s). unfold fmul at 1 2.
      apply fadd_0_l. apply Qmult_le_0_compat; tauto. }
    rewrite F, (fmul_comm l), (fmul_comm t). reflexivity.
  - rewrite E, En. apply float_lit_percent_range, Hn.
  - rewrite E, En. apply float_lit_percent_range, Hn.
  - exists n. split; [exact Hn | rewrite E; exact En].
Qed.

End Scoring.

(* ------------------------------------------------------------------ *)
(** ** The skills sub-score *)

(** C1 (as amended). The skills sub-score is 1.0 when the job requires no
    skill; otherwise 0.0 when the candidate declares none; otherwise
    |R ∩ U| / |R| over the distinct names, a required name counting as held
    when the very same string is among the declared names: the comparison is
    exact and case-sensitive, no case normalisation takes place. *)
Theorem skills_score_exact_names profile job :
  let R := remove_dups (required_skills job) in
  let U := skills profile in
  (required_skills job = [] ->
     (_calculate_skills_score profile job == 1)%Q) /\
  (required_skills job <> [] -> skills profile = [] ->
     (_calculate_skills_score profile job == 0)%Q) /\
  (required_skills job <> [] -> skills profile <> [] ->
     _calculate_skills_score profile job =
     int_truediv (length (List.filter (fun r => bool_decide (r ∈ U)) R)) (length R)).
Proof.
  intros R U. unfold _calculate_skills_score. split; [|split].
  - intros E. rewrite E. destruct (decide _) as [_|N]; [apply float_lit_1|].
    exfalso. apply N. reflexivity.
  - intros HR HU. destruct (decide _) as [E|_].
    { apply list_to_set_empty_iff in E. contradiction. }
    rewrite HU. destruct (decide _) as [_|N]; [apply float_lit_0|].
    exfalso. apply N. reflexivity.
  - intros HR HU. destruct (decide _) as [E|_].
    { apply list_to_set_empty_iff in E. contradiction. }
    destruct (decide _) as [E|_].
    { apply list_to_set_empty_iff in E. contradiction. }
    rewrite size_common_names, size_list_to_set_names. reflexivity.
Qed.

Lemma skills_score_exact_names_witness :
  (_calculate_skills_score ada_profile job_remote_open == 1)%Q /\
  (_calculate_skills_score blank_profile job_lagos_go == 0)%Q /\
  _calculate_skills_score ada_profile job_abuja_two = int_truediv 1 2.
Proof.
  destruct (skills_score_exact_names ada_profile job_remote_open) as (H1 & _ & _).
  destruct (skills_score_exact_names blank_profile job_lagos_go) as (_ & H2 & _).
  destruct (skills_score_exact_names ada_profile job_abuja_two) as (_ & _ & H3).
  split; [apply H1; reflexivity|].
  split; [apply H2; [discriminate | reflexivity]|].
  apply H3; discriminate.
Defined.

(** C1 fails as stated: a job requiring "Python" and a candidate declaring
    "python" score 0.0, where matching after case normalisation gives 1.0. *)
Lemma skills_score_case_counterexample :
  (_calculate_skills_score remote_profile job_lagos_python == 0)%Q /\
  (skills_score_case_normalized remote_profile job_lagos_python == 1)%Q /\
  ~ (_calculate_skills_score remote_profile job_lagos_python ==
     skills_score_case_normalized remote_profile job_lagos_python)%Q.
Proof.
  split; [vm_compute; reflexivity|].
  split; [vm_compute; reflexivity|].
  intros H. vm_compute in H. discriminate H.
Qed.

(* ------------------------------------------------------------------ *)
(** ** The location sub-score *)

Lemma prefix_append (a b : string) :
  String.prefix a b = true <-> exists post, b = (a +:+ post)%string.
Proof.
  revert b. induction a as [|c a IH]; intros b; destruct b as [|d b]; simpl.
  - split; [intros _; exists ""%string; reflexivity | reflexivity].
  - split; [intros _; exists (String d b); reflexivity | reflexivity].
  - split; [discriminate | intros [post H]; discriminate H].
  - destruct (ascii_dec c d) as [->|Hne].
    + rewrite IH. split; intros [post H]; exists post.
      * rewrite H. reflexivity.
      * injection H as H. exact H.
    + split; [discriminate|]. intros [post H]. injection H as H1 H2.
      congruence.
Qed.

Lemma str_in_spec (a b : string) : str_in a b = true <-> substring_of a b.
Proof.
  unfold substring_of. induction b as [|c b IH].
  - change (str_in a "") with (if String.prefix a "" then true else false).
    destruct (String.prefix a "") eqn:P.
    + split; [|reflexivity]. intros _. apply prefix_append in P as [post H].
      exists ""%string, post. exact H.
    + split; [discriminate|]. intros (pre & post & H).
      destruct pre; [|discriminate H]. simpl in H.
      assert (String.prefix a "" = true) by (apply prefix_append; eauto).
      congruence.
  - change (str_in a (String c b))
      with (if String.prefix a (String c b) then true else str_in a b).
    destruct (String.prefix a (String c b)) eqn:P.
    + split; [|reflexivity]. intros _. apply prefix_append in P as [post H].
      exists ""%string, post. exact H.
    + rewrite IH. split.
      * intros (pre & post & H). exists (String c pre), post. rewrite H. reflexivity.
      * intros (pre & post & H). destruct pre as [|d pre].
        -- simpl in H.
           assert (String.prefix a (String c b) = true) by (apply prefix_append; eauto).
           congruence.
        -- injection H as _ H. eauto.
Qed.

Lemma location_loop_spec (job_loc : string) (locs : list string) :
  location_loop (lower job_loc) locs = true <->
  exists loc, In loc locs /\
              (ci_substring loc job_loc \/ ci_substring job_loc loc).
Proof.
  unfold ci_substring. induction locs as [|l locs IH]; simpl.
  - split; [discriminate | intros (loc & [] & _)].
  - destruct (str_in (lower l) (lower job_loc) || str_in (lower job_loc) (lower l)) eqn:M.
    + split; [|reflexivity]. intros _. exists l. split; [left; reflexivity|].
      apply orb_true_iff in M as [M|M]; apply str_in_spec in M; tauto.
    + rewrite IH. apply orb_false_iff in M as [M1 M2].
      split.
      * intros (loc & Hin & H). exists loc. tauto.
      * intros (loc & [<-|Hin] & H); [|eauto].
        destruct H as [H|H]; apply str_in_spec in H; congruence.
Qed.



Example lower_examples :
  lower "LAGOS, Nigeria" = "lagos, nigeria"%string /\
  lower "MÜNCHEN" = "münchen"%string /\
  lower "ΟΔΟΣ ΑΘΗΝΑΣ" = "οδος αθηνας"%string /\
  lower "İstanbul" = "i̇stanbul"%string.
Proof. repeat split; vm_compute; reflexivity. Qed.




(* ------------------------------------------------------------------ *)
(** ** Sorting and slicing *)

Lemma insert_by_score_In r l x :
  In x (insert_by_score r l) <-> x = r \/ In x l.
Proof.
  induction l as [|y ys IH]; simpl.
  - intuition congruence.
  - destruct (fgt (score y) (score r)); simpl; [rewrite IH|]; intuition congruence.
Qed.

Lemma sort_by_score_desc_In l x : In x (sort_by_score_desc l) <-> In x l.
Proof.
  induction l as [|y ys IH]; simpl; [reflexivity|].
  rewrite insert_by_score_In, IH. intuition congruence.
Qed.

Lemma insert_by_score_length r l :
  length (insert_by_score r l) = S (length l).
Proof.
  induction l as [|y ys IH]; simpl; [reflexivity|].
  destruct (fgt (score y) (score r)); simpl; [rewrite IH|]; reflexivity.
Qed.

Lemma sort_by_score_desc_length l : length (sort_by_score_desc l) = length l.
Proof.
  induction l as [|y ys IH]; simpl; [reflexivity|].
  rewrite insert_by_score_length, IH. reflexivity.
Qed.

Lemma insert_by_score_sorted r l :
  sorted_by_score_desc l -> sorted_by_score_desc (insert_by_score r l).
Proof.
  unfold sorted_by_score_desc. induction l as [|y ys IH]; intros S; simpl.
  - constructor; constructor.
  - inversion S as [|? ? Sys Fy]; subst.
    destruct (fgt (score y) (score r)) eqn:G.
    + apply fgt_true in G. constructor; [apply IH, Sys|].
      apply List.Forall_forall. intros x Hx. apply insert_by_score_In in Hx as [->|Hx].
      * apply Qlt_le_weak, G.
      * rewrite List.Forall_forall in Fy. apply Fy, Hx.
    + apply fgt_false in G. constructor; [exact S|].
      constructor; [exact G|].
      rewrite List.Forall_forall in Fy |- *. intros x Hx.
      apply Qle_trans with (score y); [apply Fy, Hx | exact G].
Qed.

Lemma sort_by_score_desc_sorted l : sorted_by_score_desc (sort_by_score_desc l).
Proof.
  induction l as [|y ys IH]; simpl; [constructor|].
  apply insert_by_score_sorted, IH.
Qed.

Lemma firstn_incl {A} n (l : list A) x : In x (firstn n l) -> In x l.
Proof.
  revert n. induction l as [|y ys IH]; intros n H; destruct n; simpl in *; try tauto.
  destruct H as [H|H]; [left; exact H | right; eapply IH, H].
Qed.

Lemma firstn_sorted n l :
  sorted_by_score_desc l -> sorted_by_score_desc (firstn n l).
Proof.
  unfold sorted_by_score_desc. revert n.
  induction l as [|y ys IH]; intros n S; destruct n; simpl; try constructor.
  - inversion S; subst. apply IH. assumption.
  - inversion S as [|? ? _ Fy]; subst.
    rewrite List.Forall_forall in Fy |- *. intros x Hx.
    apply Fy. eapply firstn_incl, Hx.
Qed.

Lemma slice_to_firstn {A} (l : list A) limit :
  exists n, slice_to l limit = firstn n l.
Proof. unfold slice_to. destruct (limit <? 0)%Z; eauto. Qed.

Lemma slice_to_In {A} (l : list A) limit x : In x (slice_to l limit) -> In x l.
Proof.
  destruct (slice_to_firstn l limit) as [n ->]. apply firstn_incl.
Qed.

Lemma slice_to_length {A} (l : list A) limit :
  (0 <= limit)%Z -> (Z.of_nat (length (slice_to l limit)) <= limit)%Z.
Proof.
  intros H. unfold slice_to. destruct (Z.ltb_spec limit 0); [lia|].
  pose proof (firstn_le_length (Z.to_nat limit) l). lia.
Qed.

Lemma slice_to_nil {A} limit : slice_to (@nil A) limit = [].
Proof. unfold slice_to. destruct (limit <? 0)%Z; apply firstn_nil. Qed.

Lemma slice_to_zero {A} (l : list A) : slice_to l 0 = [].
Proof. reflexivity. Qed.

Lemma slice_to_negative {A} (l : list A) limit :
  (limit < 0)%Z -> slice_to l limit = firstn (length l - Z.to_nat (- limit)) l.
Proof.
  intros H. unfold slice_to. destruct (Z.ltb_spec limit 0); [|lia].
  f_equal. lia.
Qed.

(* ------------------------------------------------------------------ *)
(** ** The scoring loop *)

Lemma above_threshold_true s : above_threshold s = true <-> (float_lit (1 # 10) < s)%Q.
Proof. apply fgt_true. Qed.

Lemma score_new_recommendation user job s :
  score (new_recommendation user job s) = s.
Proof. reflexivity. Qed.

Lemma content_based_new_recommendation user job s :
  content_based_of user (new_recommendation user job s) = true.
Proof.
  unfold content_based_of, new_recommendation; cbn [rec_user algorithm_type].
  rewrite !bool_decide_eq_true_2 by reflexivity. reflexivity.
Qed.

Lemma score_jobs_In user profile js r :
  In r (score_jobs user profile js) <->
  exists j, In j js /\ above_threshold (calculate_score profile j) = true /\
            r = new_recommendation user j (calculate_score profile j).
Proof.
  induction js as [|j js IH]; cbn [score_jobs In].
  - split; [intros [] | intros (j & [] & _)].
  - destruct (above_threshold (calculate_score profile j)) eqn:T; cbn [In]; rewrite IH.
    + split.
      * intros [<-|(j' & Hin & Ht & ->)]; [exists j | exists j']; auto.
      * intros (j' & [<-|Hin] & Ht & ->); [left; reflexivity | right; eauto].
    + split.
      * intros (j' & Hin & Ht & ->). exists j'. auto.
      * intros (j' & [<-|Hin] & Ht & ->); [congruence | eauto].
Qed.

Lemma score_jobs_nil user profile js :
  (forall j, In j js -> above_threshold (calculate_score profile j) = false) ->
  score_jobs user profile js = [].
Proof.
  induction js as [|j js IH]; intros H; cbn [score_jobs]; [reflexivity|].
  rewrite (H j) by (left; reflexivity). apply IH. intros j' Hj. apply H. right. exact Hj.
Qed.

Lemma ranked_In user profile w r :
  In r (ranked user profile w) <->
  exists j, In j (candidate_jobs (applications user) (jobs w)) /\
            above_threshold (calculate_score profile j) = true /\
            r = new_recommendation user j (calculate_score profile j).
Proof. unfold ranked. rewrite sort_by_score_desc_In. apply score_jobs_In. Qed.

Lemma ranked_above_threshold user profile w r :
  In r (ranked user profile w) -> (float_lit (1 # 10) < score r)%Q.
Proof.
  intros H. apply ranked_In in H as (j & _ & T & ->).
  rewrite score_new_recommendation. apply above_threshold_true, T.
Qed.

Lemma ranked_content_based user profile w r :
  In r (ranked user profile w) -> content_based_of user r = true.
Proof.
  intros H. apply ranked_In in H as (j & _ & _ & ->).
  apply content_based_new_recommendation.
Qed.

Lemma ranked_sorted user profile w : sorted_by_score_desc (ranked user profile w).
Proof. apply sort_by_score_desc_sorted. Qed.

Lemma candidate_jobs_In applied all j :
  In j (candidate_jobs applied all) <->
  In j all /\ status j = published /\ ~ In (job_id j) applied.
Proof.
  unfold candidate_jobs. rewrite filter_In, andb_true_iff, negb_true_iff.
  rewrite bool_decide_eq_true, bool_decide_eq_false, list_elem_of_In. tauto.
Qed.

(* ------------------------------------------------------------------ *)
(** ** Rows of one user and the others *)

Lemma filter_all_true {A} (f : A -> bool) l :
  (forall x, In x l -> f x = true) -> List.filter f l = l.
Proof.
  induction l as [|x l IH]; intros H; simpl; [reflexivity|].
  rewrite (H x) by (left; reflexivity). f_equal. apply IH. intros y Hy. apply H. right. exact Hy.
Qed.

Lemma filter_all_false {A} (f : A -> bool) l :
  (forall x, In x l -> f x = false) -> List.filter f l = [].
Proof.
  induction l as [|x l IH]; intros H; simpl; [reflexivity|].
  rewrite (H x) by (left; reflexivity). apply IH. intros y Hy. apply H. right. exact Hy.
Qed.

Lemma others_of_idem user t : others_of user (others_of user t) = others_of user t.
Proof.
  unfold others_of. apply filter_all_true. intros x Hx.
  apply filter_In in Hx. tauto.
Qed.

Lemma batch_of_others user t : batch_of user (others_of user t) = [].
Proof.
  unfold batch_of, others_of. apply filter_all_false. intros x Hx.
  apply filter_In in Hx as [_ Hx]. apply negb_true_iff, Hx.
Qed.

Lemma others_of_app user t b :
  (forall r, In r b -> content_based_of user r = true) ->
  others_of user (t ++ b) = others_of user t.
Proof.
  intros H. unfold others_of. rewrite List.filter_app.
  rewrite (filter_all_false _ b), app_nil_r; [reflexivity|].
  intros x Hx. rewrite (H x Hx). reflexivity.
Qed.

Lemma batch_of_app user t b :
  (forall r, In r b -> content_based_of user r = true) ->
  batch_of user (others_of user t ++ b) = b.
Proof.
  intros H. unfold batch_of. rewrite List.filter_app.
  fold (batch_of user (others_of user t)). rewrite batch_of_others.
  apply filter_all_true, H.
Qed.

(* ------------------------------------------------------------------ *)
(** ** Runs of [generate_recommendations] *)

Lemma write_run f w :
  write f w =
  if raises_at 0 w then (Raises, after_fault w)
  else (Returns tt, after_write (f (job_recommendations w)) w).
Proof.
  unfold write, raises_at, after_fault, after_write.
  destruct (write_faults w) as [|[] rest]; reflexivity.
Qed.

(** Every run of a user with a profile: the delete, then (for a non-empty
    batch) the insert, each committed or raising on its own. *)
Lemma generate_run user profile limit w :
  freelancer_profile user = Some profile ->
  generate_recommendations user limit w =
  let batch := slice_to (ranked user profile w) limit in
  if raises_at 0 w then (Raises, after_fault w)
  else
    let w1 := after_write (others_of user (job_recommendations w)) w in
    match batch with
    | [] => (Returns [], w1)
    | _ :: _ =>
        if raises_at 0 w1 then (Raises, after_fault w1)
        else (Returns batch, after_write (job_recommendations w1 ++ batch) w1)
    end.
Proof.
  intros P. unfold generate_recommendations. rewrite P.
  unfold mbind, Db_bind, all_jobs, delete_where. fold (ranked user profile w).
  rewrite write_run. fold (others_of user (job_recommendations w)).
  cbv zeta. destruct (raises_at 0 w); [reflexivity|].
  destruct (slice_to (ranked user profile w) limit) as [|r rs] eqn:B.
  - reflexivity.
  - unfold bulk_create. rewrite write_run.
    destruct (raises_at 0 (after_write _ w)); reflexivity.
Qed.

Lemma generate_no_profile user limit w :
  freelancer_profile user = None ->
  generate_recommendations user limit w = (Returns [], w).
Proof. intros P. unfold generate_recommendations. rewrite P. reflexivity. Qed.

Lemma raises_at_no_fault n w : no_fault w -> raises_at n w = false.
Proof.
  intros H. unfold raises_at. destruct (nth_in_or_default n (write_faults w) false) as [I|E].
  - apply H, I.
  - exact E.
Qed.

Lemma no_fault_after_write t w : no_fault w -> no_fault (after_write t w).
Proof.
  unfold no_fault. simpl. intros H b Hb. apply H.
  destruct (write_faults w); [contradiction | right; exact Hb].
Qed.

Lemma committed_during_after_write t w :
  committed_during w (after_write t w) = [t].
Proof.
  unfold committed_during. simpl.
  rewrite skipn_app, skipn_all, Nat.sub_diag. reflexivity.
Qed.

Lemma committed_during_after_write2 t t' w :
  committed_during w (after_write t' (after_write t w)) = [t; t'].
Proof.
  unfold committed_during. simpl. rewrite <- app_assoc.
  rewrite skipn_app, skipn_all, Nat.sub_diag. reflexivity.
Qed.

Lemma committed_during_refl w : committed_during w w = [].
Proof. unfold committed_during. apply skipn_all. Qed.

(** A run that returns, returns a prefix of the ranked list (or nothing when
    there is no profile). *)
Lemma generate_returns_batch user limit w batch w' :
  generate_recommendations user limit w = (Returns batch, w') ->
  match freelancer_profile user with
  | None => batch = [] /\ w' = w
  | Some profile =>
      batch = slice_to (ranked user profile w) limit /\
      job_recommendations w' = others_of user (job_recommendations w) ++ batch /\
      exists later,
        committed_during w w' = others_of user (job_recommendations w) :: later
  end.
Proof.
  intros E. destruct (freelancer_profile user) as [profile|] eqn:P.
  - rewrite (generate_run user profile limit w P) in E. cbv zeta in E.
    destruct (raises_at 0 w); [discriminate E|].
    destruct (slice_to (ranked user profile w) limit) as [|r rs] eqn:B.
    + injection E as <- <-. rewrite app_nil_r. simpl.
      split; [reflexivity|]. split; [reflexivity|].
      exists []. apply committed_during_after_write.
    + destruct (raises_at 0 (after_write _ w)); [discriminate E|].
      injection E as <- <-. split; [reflexivity|]. split; [reflexivity|].
      eexists. apply committed_during_after_write2.
  - rewrite (generate_no_profile user limit w P) in E. injection E as <- <-. tauto.
Qed.

(** Without faults the run returns. *)
Lemma generate_returns user limit w :
  no_fault w ->
  exists batch w', generate_recommendations user limit w = (Returns batch, w').
Proof.
  intros NF. destruct (freelancer_profile user) as [profile|] eqn:P.
  - rewrite (generate_run user profile limit w P). cbv zeta.
    rewrite (raises_at_no_fault 0 w NF).
    destruct (slice_to _ _); [eauto|].
    rewrite (raises_at_no_fault 0 _ (no_fault_after_write _ w NF)). eauto.
  - rewrite (generate_no_profile user limit w P). eauto.
Qed.

(** Whatever the outcome, the rows that are not content-based rows of the
    user stay as they are. *)
Lemma generate_frame user limit w :
  others_of user (job_recommendations (snd (generate_recommendations user limit w)))
  = others_of user (job_recommendations w).
Proof.
  destruct (freelancer_profile user) as [profile|] eqn:P.
  - rewrite (generate_run user profile limit w P). cbv zeta.
    destruct (raises_at 0 w); [reflexivity|].
    destruct (slice_to (ranked user profile w) limit) as [|r rs] eqn:B.
    + simpl. apply others_of_idem.
    + destruct (raises_at 0 (after_write _ w)); simpl.
      * apply others_of_idem.
      * rewrite others_of_app; [apply others_of_idem|].
        intros x Hx. apply (ranked_content_based user profile w).
        apply (slice_to_In _ limit). rewrite B. exact Hx.
  - rewrite (generate_no_profile user limit w P). reflexivity.
Qed.

(* ------------------------------------------------------------------ *)
(** ** Properties of the generation run *)

(** C8. For a user without a freelancer profile the run returns the empty
    list as a normal result and leaves the world, the recommendation table
    included, exactly as it was: no statement is issued. *)
Theorem no_profile_no_effect user limit w :
  freelancer_profile user = None ->
  generate_recommendations user limit w = (Returns [], w).
Proof. apply generate_no_profile. Qed.

Lemma no_profile_no_effect_witness :
  generate_recommendations guest 10 (sample_world [true]) =
  (Returns [], sample_world [true]).
Proof. apply (no_profile_no_effect guest 10 (sample_world [true])). reflexivity. Defined.

(** C6. The list a run returns is sorted by score, highest first, and for a
    limit that is not negative it holds at most [limit] records. *)
Theorem generated_sorted_and_bounded user limit w batch w' :
  generate_recommendations user limit w = (Returns batch, w') ->
  sorted_by_score_desc batch /\
  ((0 <= limit)%Z -> (Z.of_nat (length batch) <= limit)%Z).
Proof.
  intros E. apply generate_returns_batch in E.
  destruct (freelancer_profile user) as [profile|].
  - destruct E as (-> & _). split.
    + destruct (slice_to_firstn (ranked user profile w) limit) as [n ->].
      apply firstn_sorted, ranked_sorted.
    + apply slice_to_length.
  - destruct E as (-> & _). split; [constructor | simpl; lia].
Qed.

Lemma generated_sorted_and_bounded_witness :
  exists batch w',
    generate_recommendations ada 2 (sample_world []) = (Returns batch, w') /\
    List.map rec_job batch = [1%N; 6%N] /\
    sorted_by_score_desc batch /\ (Z.of_nat (length batch) <= 2)%Z.
Proof.
  destruct (generate_recommendations ada 2 (sample_world [])) as [res w'] eqn:E.
  vm_compute in E. injection E as <- <-.
  eexists. eexists. split; [reflexivity|]. split; [reflexivity|].
  assert (R : generate_recommendations ada 2 (sample_world []) =
              (Returns _, _)) by (vm_compute; reflexivity).
  destruct (generated_sorted_and_bounded ada 2 (sample_world []) _ _ R) as [S L].
  split; [exact S | apply L; lia].
Defined.

(** C7 fails as stated: with limit -1 and three records above the threshold
    the run returns the first two. *)
Lemma negative_limit_counterexample :
  ~ empty_when_limit_not_positive ada (-1) (sample_world []).
Proof.
  unfold empty_when_limit_not_positive. intros H.
  assert (L : (-1 <= 0)%Z) by lia. specialize (H L).
  vm_compute in H. discriminate H.
Qed.

(** C7 (as amended). With limit 0 a run returns the empty list.  With a
    negative limit it returns the ranked records without their last [-limit]
    entries, which is the empty list only when at most [-limit] records clear
    the threshold. *)
Theorem limit_not_positive user limit w batch w' :
  generate_recommendations user limit w = (Returns batch, w') ->
  (limit = 0%Z -> batch = []) /\
  (forall profile, (limit < 0)%Z -> freelancer_profile user = Some profile ->
     let n := length (ranked user profile w) in
     batch = firstn (n - Z.to_nat (- limit)) (ranked user profile w) /\
     (batch = [] <-> (n <= Z.to_nat (- limit))%nat)).
Proof.
  intros E. apply generate_returns_batch in E. split.
  - intros ->. destruct (freelancer_profile user); destruct E as (-> & _); reflexivity.
  - intros profile L P n. rewrite P in E. destruct E as (-> & _).
    rewrite slice_to_negative by exact L. fold n. split; [reflexivity|].
    split.
    + intros H. apply (f_equal (@length _)) in H. rewrite length_firstn in H.
      simpl in H. fold n in H. lia.
    + intros H. replace (n - Z.to_nat (- limit))%nat with 0%nat by lia. reflexivity.
Qed.

Lemma limit_not_positive_witness :
  (exists w', generate_recommendations ada 0 (sample_world []) = (Returns [], w')) /\
  (exists batch w',
     generate_recommendations ada (-1) (sample_world []) = (Returns batch, w') /\
     batch = firstn 2 (ranked ada ada_profile (sample_world []))) /\
  (exists w', generate_recommendations ada (-3) (sample_world []) = (Returns [], w')).
Proof.
  split; [|split].
  - destruct (generate_recommendations ada 0 (sample_world [])) as [[batch|] w'] eqn:E;
      [|vm_compute in E; discriminate E].
    destruct (limit_not_positive ada 0 (sample_world []) batch w' E) as [H _].
    rewrite (H eq_refl). eauto.
  - destruct (generate_recommendations ada (-1) (sample_world [])) as [[batch|] w'] eqn:E;
      [|vm_compute in E; discriminate E].
    destruct (limit_not_positive ada (-1) (sample_world []) batch w' E) as [_ H].
    destruct (H ada_profile) as [H1 _]; [lia | reflexivity |].
    exists batch, w'. split; [reflexivity | exact H1].
  - destruct (generate_recommendations ada (-3) (sample_world [])) as [[batch|] w'] eqn:E;
      [|vm_compute in E; discriminate E].
    destruct (limit_not_positive ada (-3) (sample_world []) batch w' E) as [_ H].
    destruct (H ada_profile) as [_ H2]; [lia | reflexivity |].
    rewrite (proj2 H2); [eauto|]. vm_compute. lia.
Defined.

(** C4. Every record a run returns, and every row a run adds to the table,
    has a score above 0.10.  A candidate job scoring exactly 0.10 gets no
    record among the ranked ones, while a candidate job scoring 0.20 does. *)
Theorem threshold_strict user limit w :
  (forall batch w' r,
     generate_recommendations user limit w = (Returns batch, w') ->
     In r batch ->
     (float_lit (1 # 10) < score r)%Q /\ ~ (score r == float_lit (1 # 10))%Q) /\
  (forall r,
     In r (job_recommendations (snd (generate_recommendations user limit w))) ->
     In r (job_recommendations w) \/ (float_lit (1 # 10) < score r)%Q) /\
  (forall profile j,
     In j (candidate_jobs (applications user) (jobs w)) ->
     (calculate_score profile j == float_lit (1 # 10))%Q ->
     ~ In (new_recommendation user j (calculate_score profile j))
          (ranked user profile w)) /\
  (forall profile j,
     In j (candidate_jobs (applications user) (jobs w)) ->
     (calculate_score profile j == float_lit (2 # 10))%Q ->
     In (new_recommendation user j (calculate_score profile j))
        (ranked user profile w)).
Proof.
  assert (B : forall batch w' r,
     generate_recommendations user limit w = (Returns batch, w') ->
     In r batch -> (float_lit (1 # 10) < score r)%Q).
  { intros batch w' r E Hr. apply generate_returns_batch in E.
    destruct (freelancer_profile user) as [profile|]; destruct E as (-> & _).
    - apply (ranked_above_threshold user profile w), (slice_to_In _ limit), Hr.
    - destruct Hr. }
  split; [|split; [|split]].
  - intros batch w' r E Hr. pose proof (B batch w' r E Hr) as H.
    split; [exact H|]. intros C. rewrite C in H. apply (Qlt_irrefl _ H).
  - intros r Hr.
    destruct (generate_recommendations user limit w) as [[batch|] w'] eqn:E.
    + pose proof (generate_returns_batch _ _ _ _ _ E) as G. simpl in Hr.
      destruct (freelancer_profile user) as [profile|].
      * destruct G as (_ & T & _). rewrite T in Hr. apply in_app_or in Hr as [Hr|Hr].
        -- left. unfold others_of in Hr. apply filter_In in Hr. tauto.
        -- right. apply (B batch w' r eq_refl Hr).
      * destruct G as (_ & ->). left. exact Hr.
    + left. simpl in Hr.
      pose proof (generate_frame user limit w) as F. rewrite E in F. simpl in F.
      destruct (freelancer_profile user) as [profile|] eqn:P.
      * rewrite (generate_run user profile limit w P) in E. cbv zeta in E.
        destruct (raises_at 0 w).
        { injection E as <-. exact Hr. }
        destruct (slice_to _ _).
        { discriminate E. }
        destruct (raises_at 0 _); [|discriminate E].
        injection E as <-. simpl in Hr. unfold others_of in Hr.
        apply filter_In in Hr. tauto.
      * rewrite (generate_no_profile user limit w P) in E. discriminate E.
  - intros profile j Hj Es Hin. apply ranked_above_threshold in Hin.
    rewrite score_new_recommendation, Es in Hin. apply (Qlt_irrefl _ Hin).
  - intros profile j Hj Es. apply ranked_In. exists j.
    split; [exact Hj|]. split; [|reflexivity].
    apply above_threshold_true. rewrite Es. apply float_lit_tenth_lt_fifth.
Qed.

Lemma threshold_strict_witness :
  (exists batch w',
     generate_recommendations ada 10 (sample_world []) = (Returns batch, w') /\
     length batch = 3%nat /\
     (forall r, In r batch -> (float_lit (1 # 10) < score r)%Q) /\
     (forall r, In r (job_recommendations w') ->
                In r (job_recommendations (sample_world [])) \/
                (float_lit (1 # 10) < score r)%Q)) /\
  (calculate_score ada_profile job_six_skills == float_lit (1 # 10))%Q /\
  ~ In (new_recommendation ada job_six_skills (calculate_score ada_profile job_six_skills))
       (ranked ada ada_profile (sample_world [])) /\
  (calculate_score ada_profile job_lagos_go == float_lit (2 # 10))%Q /\
  In (new_recommendation ada job_lagos_go (calculate_score ada_profile job_lagos_go))
     (ranked ada ada_profile (sample_world [])).
Proof.
  destruct (threshold_strict ada 10 (sample_world [])) as (H1 & H2 & H3 & H4).
  assert (E1 : (calculate_score ada_profile job_six_skills == float_lit (1 # 10))%Q)
    by (vm_compute; reflexivity).
  assert (E2 : (calculate_score ada_profile job_lagos_go == float_lit (2 # 10))%Q)
    by (vm_compute; reflexivity).
  split; [|split; [exact E1|]; split; [|split; [exact E2|]]].
  - destruct (generate_recommendations ada 10 (sample_world [])) as [[batch|] w'] eqn:E;
      [|vm_compute in E; discriminate E].
    exists batch, w'. split; [reflexivity|]. split.
    { vm_compute in E. injection E as <- _. reflexivity. }
    split; [intros r Hr; apply (H1 batch w' r eq_refl Hr) | exact H2].
  - apply H3; [|exact E1]. apply candidate_jobs_In. vm_compute.
    split; [tauto|]. split; [reflexivity|]. intros [H|[]]. discriminate H.
  - apply H4; [|exact E2]. apply candidate_jobs_In. vm_compute.
    split; [tauto|]. split; [reflexivity|]. intros [H|[]]. discriminate H.
Defined.

(** C9. A run never touches a row that is not a content-based row of its
    user, whatever its outcome.  A run that returns for a user with a profile
    first commits the table without that user's content-based rows, all other
    rows in place, and ends with those other rows followed by the new batch. *)
Theorem replaces_only_own_content_based user limit w :
  others_of user (job_recommendations (snd (generate_recommendations user limit w)))
  = others_of user (job_recommendations w) /\
  (forall batch w',
     generate_recommendations user limit w = (Returns batch, w') ->
     freelancer_profile user <> None ->
     job_recommendations w' = others_of user (job_recommendations w) ++ batch /\
     (forall r, In r batch -> content_based_of user r = true) /\
     exists later,
       committed_during w w' = others_of user (job_recommendations w) :: later).
Proof.
  split; [apply generate_frame|].
  intros batch w' E P. apply generate_returns_batch in E.
  destruct (freelancer_profile user) as [profile|]; [|contradiction].
  destruct E as (-> & T & L). split; [exact T|]. split; [|exact L].
  intros r Hr. apply (ranked_content_based user profile w), (slice_to_In _ limit), Hr.
Qed.

Lemma replaces_only_own_content_based_witness :
  exists batch w',
    generate_recommendations ada 2 (sample_world []) = (Returns batch, w') /\
    others_of ada (job_recommendations w') = [collaborative_row; foreign_row] /\
    job_recommendations w' = [collaborative_row; foreign_row] ++ batch /\
    exists later, committed_during (sample_world []) w' =
                  [collaborative_row; foreign_row] :: later.
Proof.
  destruct (generate_recommendations ada 2 (sample_world [])) as [[batch|] w'] eqn:E;
    [|vm_compute in E; discriminate E].
  destruct (replaces_only_own_content_based ada 2 (sample_world [])) as [F H].
  rewrite E in F. simpl in F.
  destruct (H batch w' E) as (T & _ & L); [discriminate|].
  exists batch, w'. split; [reflexivity|].
  split; [exact F|]. split; [exact T | exact L].
Defined.

(** C10. For a user with a profile, a run without store faults returns, and
    after any run that returns the user's content-based rows in the table are
    exactly the returned batch.  When no candidate job scores above the
    threshold (in particular when there is no candidate job) the batch is
    empty and the user is left with no content-based row. *)
Theorem persisted_batch_is_returned user profile limit w :
  freelancer_profile user = Some profile ->
  (no_fault w ->
   exists batch w', generate_recommendations user limit w = (Returns batch, w')) /\
  (forall batch w',
     generate_recommendations user limit w = (Returns batch, w') ->
     batch_of user (job_recommendations w') = batch /\
     ((forall j, In j (candidate_jobs (applications user) (jobs w)) ->
                 ~ (float_lit (1 # 10) < calculate_score profile j)%Q) ->
      batch = [] /\ batch_of user (job_recommendations w') = [])).
Proof.
  intros P. split; [apply generate_returns|].
  intros batch w' E. apply generate_returns_batch in E. rewrite P in E.
  destruct E as (B & T & _).
  assert (S : batch_of user (job_recommendations w') = batch).
  { rewrite T. apply batch_of_app. intros r Hr. rewrite B in Hr.
    apply (ranked_content_based user profile w), (slice_to_In _ limit), Hr. }
  split; [exact S|]. intros N.
  assert (Z : batch = []).
  { rewrite B. unfold ranked. rewrite score_jobs_nil; [apply slice_to_nil|].
    intros j Hj. destruct (above_threshold _) eqn:A; [|reflexivity].
    apply above_threshold_true in A. exfalso. apply (N j Hj A). }
  split; [exact Z | rewrite S; exact Z].
Qed.

Lemma persisted_batch_is_returned_witness :
  (exists batch w',
     generate_recommendations ada 2 (sample_world []) = (Returns batch, w') /\
     batch_of ada (job_recommendations w') = batch /\
     List.map rec_job batch = [1%N; 6%N]) /\
  (exists w',
     generate_recommendations ada 2
       {| jobs := [job_six_skills; job_draft];
          job_recommendations := [old_row; collaborative_row];
          committed := []; write_faults := [] |} = (Returns [], w') /\
     batch_of ada (job_recommendations w') = []).
Proof.
  split.
  - destruct (persisted_batch_is_returned ada ada_profile 2 (sample_world []) eq_refl)
      as [R H].
    destruct R as (batch & w' & E); [intros b []|].
    destruct (H batch w' E) as [S _].
    exists batch, w'. split; [exact E|]. split; [exact S|].
    vm_compute in E. injection E as <- _. reflexivity.
  - set (w := {| jobs := [job_six_skills; job_draft];
                 job_recommendations := [old_row; collaborative_row];
                 committed := []; write_faults := [] |}).
    destruct (persisted_batch_is_returned ada ada_profile 2 w eq_refl) as [R H].
    destruct R as (batch & w' & E); [intros b []|].
    destruct (H batch w' E) as [_ Z].
    destruct Z as [Z1 Z2].
    + intros j Hj. apply candidate_jobs_In in Hj as (Hj & St & _).
      destruct Hj as [<-|[<-|[]]]; [|discriminate St].
      intros C. vm_compute in C. discriminate C.
    + exists w'. subst batch. split; [exact E | exact Z2].
Defined.

(** C3 fails as stated.  In a run without faults the committed state after
    the delete shows neither the old batch nor the new one; when the insert
    raises, the run raises and the old batch stays deleted. *)
Lemma not_atomic_counterexample :
  ~ replaced_atomically ada 2 (sample_world []) /\
  ~ replaced_atomically ada 2 (sample_world [false; true]).
Proof.
  split.
  - unfold replaced_atomically.
    destruct (generate_recommendations ada 2 (sample_world [])) as [res w'] eqn:E.
    vm_compute in E. injection E as <- <-. intros [H _].
    destruct (H [collaborative_row; foreign_row]) as [C|C].
    + left. reflexivity.
    + vm_compute in C. discriminate C.
    + vm_compute in C. discriminate C.
  - unfold replaced_atomically.
    destruct (generate_recommendations ada 2 (sample_world [false; true])) as [res w'] eqn:E.
    vm_compute in E. injection E as <- <-. intros [_ H].
    specialize (H eq_refl). vm_compute in H. discriminate H.
Qed.

(** C3 (as amended). The run issues the delete and the bulk insert as two
    statements, each committed on its own.  If the delete raises, the run
    raises and the table is unchanged.  Once the delete is committed, the
    table without the user's content-based rows (old batch gone, new batch
    absent) is a committed state; if the insert then raises, the run raises
    and the table stays in that state, with no rollback and no retry.  If
    both succeed the run returns the batch and the table holds the other rows
    followed by the batch. *)
Theorem delete_then_insert_in_two_steps user profile limit w :
  freelancer_profile user = Some profile ->
  let batch := slice_to (ranked user profile w) limit in
  let t0 := job_recommendations w in
  let t1 := others_of user t0 in
  let res := fst (generate_recommendations user limit w) in
  let w' := snd (generate_recommendations user limit w) in
  (raises_at 0 w = true ->
     res = Raises /\ job_recommendations w' = t0 /\ committed_during w w' = []) /\
  (raises_at 0 w = false -> batch <> [] -> raises_at 1 w = true ->
     res = Raises /\ job_recommendations w' = t1 /\ committed_during w w' = [t1]) /\
  (raises_at 0 w = false -> batch <> [] -> raises_at 1 w = false ->
     res = Returns batch /\ job_recommendations w' = t1 ++ batch /\
     committed_during w w' = [t1; t1 ++ batch]) /\
  (raises_at 0 w = false -> batch = [] ->
     res = Returns [] /\ job_recommendations w' = t1 /\ committed_during w w' = [t1]).
Proof.
  intros P batch t0 t1 res w'. subst res w'.
  rewrite (generate_run user profile limit w P). cbv zeta. fold batch t0 t1.
  assert (R1 : raises_at 0 (after_write t1 w) = raises_at 1 w).
  { unfold raises_at. simpl. destruct (write_faults w); reflexivity. }
  rewrite R1.
  destruct (raises_at 0 w).
  - split; [intros _; simpl; auto using committed_during_refl|].
    { split; [reflexivity|]. split; [reflexivity|].
      unfold committed_during. simpl. apply skipn_all. }
    split; [discriminate|]. split; discriminate.
  - split; [discriminate|]. destruct batch as [|r rs].
    + split; [congruence|]. split; [congruence|]. intros _ _. simpl.
      split; [reflexivity|]. split; [reflexivity|]. apply committed_during_after_write.
    + destruct (raises_at 1 w).
      * split.
        { intros _ _ _. simpl. split; [reflexivity|]. split; [reflexivity|].
          apply (committed_during_after_write t1 w). }
        split; [discriminate | intros _ E; discriminate E].
      * split; [discriminate|]. split; [|intros _ E; discriminate E].
        intros _ _ _. simpl. split; [reflexivity|]. split; [reflexivity|].
        apply committed_during_after_write2.
Qed.

Lemma delete_then_insert_in_two_steps_witness :
  (fst (generate_recommendations ada 2 (sample_world [true])) = Raises /\
   job_recommendations (snd (generate_recommendations ada 2 (sample_world [true])))
   = [old_row; collaborative_row; foreign_row]) /\
  (fst (generate_recommendations ada 2 (sample_world [false; true])) = Raises /\
   job_recommendations (snd (generate_recommendations ada 2 (sample_world [false; true])))
   = [collaborative_row; foreign_row]) /\
  (committed_during (sample_world [])
     (snd (generate_recommendations ada 2 (sample_world [])))
   = [[collaborative_row; foreign_row];
      [collaborative_row; foreign_row]
        ++ slice_to (ranked ada ada_profile (sample_world [])) 2]) /\
  (job_recommendations (snd (generate_recommendations ada 0 (sample_world [])))
   = [collaborative_row; foreign_row]).
Proof.
  split; [|split; [|split]].
  - destruct (delete_then_insert_in_two_steps ada ada_profile 2 (sample_world [true]) eq_refl)
      as (H & _).
    destruct (H eq_refl) as (R & T & _). split; [exact R | exact T].
  - destruct (delete_then_insert_in_two_steps ada ada_profile 2
                (sample_world [false; true]) eq_refl) as (_ & H & _).
    destruct H as (R & T & _); [reflexivity | | reflexivity |].
    { intros C. vm_compute in C. discriminate C. }
    split; [exact R | exact T].
  - destruct (delete_then_insert_in_two_steps ada ada_profile 2 (sample_world []) eq_refl)
      as (_ & _ & H & _).
    destruct H as (_ & _ & C); [reflexivity | | reflexivity |].
    { intros C. vm_compute in C. discriminate C. }
    exact C.
  - destruct (delete_then_insert_in_two_steps ada ada_profile 0 (sample_world []) eq_refl)
      as (_ & _ & _ & H).
    destruct H as (_ & T & _); [reflexivity | reflexivity |]. exact T.
Defined.

(* ------------------------------------------------------------------ *)
(** ** Further properties of the scoring function *)

Section ScoringExtras.
#[local] Open Scope Q_scope.

Lemma round_eq_leibniz x y :
  round_binary64 x == round_binary64 y -> round_binary64 x = round_binary64 y.
Proof.
  intros E. unfold round_binary64 in *.
  rewrite <- (Qcanon.Qred_involutive (_ * _)).
  rewrite <- (Qcanon.Qred_involutive (inject_Z (rne (Qred y / _)) * _)).
  apply Qred_complete, E.
Qed.

Lemma py_round_eq_leibniz x n q :
  py_round x n == float_lit q -> py_round x n = float_lit q.
Proof. unfold py_round, float_lit. apply round_eq_leibniz. Qed.

Lemma py_round_mono x y : 0 <= x -> x <= y -> py_round x 2 <= py_round y 2.
Proof.
  intros Hx Hxy. unfold py_round.
  change (inject_Z (10 ^ Z.of_nat 2)) with 100.
  assert (M : (rne (x * 100) <= rne (y * 100))%Z) by (apply rne_mono; lra).
  assert (P : (0 <= rne (x * 100))%Z).
  { apply (Z.le_trans _ (rne (inject_Z 0))); [rewrite rne_Z; lia|].
    apply rne_mono. change (inject_Z 0) with 0. lra. }
  rewrite Zle_Qle in M, P. change (inject_Z 0) with 0 in P.
  apply round_mono.
  - apply Qle_shift_div_l; [reflexivity | lra].
  - apply Qmult_le_compat_r; [exact M | discriminate].
Qed.

Lemma calculate_score_weighted profile job :
  calculate_score profile job =
  weighted_score (_calculate_skills_score profile job)
                 (_calculate_location_score profile job)
                 (_calculate_type_score profile job).
Proof.
  unfold calculate_score, weighted_score.
  rewrite weights_skills, weights_location, weights_job_type. reflexivity.
Qed.

Lemma weighted_score_mono s l t s' l' t' :
  0 <= s -> s <= s' -> 0 <= l -> l <= l' -> 0 <= t -> t <= t' ->
  weighted_score s l t <= weighted_score s' l' t'.
Proof.
  intros Hs Hss Hl Hll Ht Htt. unfold weighted_score.
  assert (H6 : 0 <= float_lit (6 # 10)) by (apply float_lit_nonneg; lra).
  assert (H2 : 0 <= float_lit (2 # 10)) by (apply float_lit_nonneg; lra).
  assert (Z0 : 0 <= float_lit 0) by (rewrite float_lit_0; lra).
  pose proof (fmul_nonneg s _ Hs H6) as A. pose proof (fmul_nonneg l _ Hl H2) as B.
  pose proof (fmul_nonneg t _ Ht H2) as C.
  pose proof (fadd_nonneg _ _ Z0 A) as S1.
  pose proof (fadd_nonneg _ _ S1 B) as S2.
  apply py_round_mono; [apply fadd_nonneg; assumption|].
  apply fadd_mono; [exact S2 | | exact C |].
  - apply fadd_mono; [exact S1 | | exact B |].
    + apply fadd_mono; [exact Z0 | lra | exact A |].
      apply fmul_mono; [exact Hs | exact Hss | exact H6 | lra].
    + apply fmul_mono; [exact Hl | exact Hll | exact H2 | lra].
  - apply fmul_mono; [exact Ht | exact Htt | exact H2 | lra].
Qed.

Lemma int_truediv_mono k k' n :
  (k <= k')%nat -> (0 < n)%nat -> int_truediv k n <= int_truediv k' n.
Proof.
  intros Hk Hn. unfold int_truediv.
  assert (Hnq : 0 < inject_Z (Z.of_nat n)).
  { change 0 with (inject_Z 0). rewrite <- Zlt_Qlt. lia. }
  assert (Hkq : 0 <= inject_Z (Z.of_nat k)).
  { change 0 with (inject_Z 0). rewrite <- Zle_Qle. lia. }
  assert (Hkk : inject_Z (Z.of_nat k) <= inject_Z (Z.of_nat k')).
  { rewrite <- Zle_Qle. lia. }
  apply round_mono.
  - apply Qle_shift_div_l; [exact Hnq | lra].
  - apply Qmult_le_compat_r; [exact Hkk|].
    apply Qlt_le_weak, Qinv_lt_0_compat, Hnq.
Qed.

(** X1. The job-type sub-score is 0.5 when the candidate lists no preferred
    project type; otherwise 1.0 when the job's type is one of the listed
    strings (exact, case-sensitive equality) and 0.0 when it is not. *)
Theorem type_score_cases profile job :
  (preferred_project_types profile = [] ->
     _calculate_type_score profile job == 1 # 2) /\
  (preferred_project_types profile <> [] ->
     In (job_type job) (preferred_project_types profile) ->
     _calculate_type_score profile job == 1) /\
  (preferred_project_types profile <> [] ->
     ~ In (job_type job) (preferred_project_types profile) ->
     _calculate_type_score profile job == 0).
Proof.
  unfold _calculate_type_score.
  destruct (preferred_project_types profile) as [|t0 ts] eqn:E.
  - split; [intros _; apply float_lit_half|]. split; congruence.
  - split; [discriminate|].
    destruct (bool_decide (job_type job ∈ t0 :: ts)) eqn:B.
    + apply bool_decide_eq_true in B. apply list_elem_of_In in B.
      split; [intros _ _; apply float_lit_1 | intros _ N; contradiction].
    + apply bool_decide_eq_false in B. rewrite list_elem_of_In in B.
      split; [intros _ I; contradiction | intros _ _; apply float_lit_0].
Qed.

Lemma type_score_cases_witness :
  _calculate_type_score blank_profile job_lagos_go == 1 # 2 /\
  _calculate_type_score ada_profile job_lagos_python == 1 /\
  _calculate_type_score ada_profile job_lagos_go == 0.
Proof.
  destruct (type_score_cases blank_profile job_lagos_go) as (H1 & _).
  destruct (type_score_cases ada_profile job_lagos_python) as (_ & H2 & _).
  destruct (type_score_cases ada_profile job_lagos_go) as (_ & _ & H3).
  split; [apply H1; reflexivity|].
  split; [apply H2; [discriminate | left; reflexivity]|].
  apply H3; [discriminate|]. intros [H|[]]. discriminate H.
Defined.

Lemma skills_score_le profile profile' job :
  (forall s, In s (skills profile) -> In s (skills profile')) ->
  _calculate_skills_score profile job <= _calculate_skills_score profile' job.
Proof.
  intros Sub. unfold _calculate_skills_score.
  destruct (decide (list_to_set (required_skills job) = ∅)) as [|HR];
    [apply Qle_refl|].
  assert (Hn : (0 < size (list_to_set (required_skills job) : gset string))%nat).
  { assert (size (list_to_set (required_skills job) : gset string) <> 0%nat).
    { apply size_non_empty_iff. intros E. apply HR. apply leibniz_equiv, E. }
    lia. }
  assert (Inc : (list_to_set (skills profile) : gset string)
                ⊆ list_to_set (skills profile')).
  { intros x. rewrite !elem_of_list_to_set, !list_elem_of_In. apply Sub. }
  destruct (decide (list_to_set (skills profile) = ∅)) as [|HU].
  - destruct (decide (list_to_set (skills profile') = ∅)) as [|HU'];
      [apply Qle_refl|].
    rewrite float_lit_0. apply int_truediv_range; [|exact Hn].
    apply subseteq_size, intersection_subseteq_r.
  - destruct (decide (list_to_set (skills profile') = ∅)) as [E'|HU'].
    + exfalso. apply HU. apply leibniz_equiv. rewrite E' in Inc.
      apply equiv_empty, Inc.
    + apply int_truediv_mono; [|exact Hn].
      apply subseteq_size. apply intersection_mono_r, Inc.
Qed.


(** X2. Declaring more skills never lowers the skills sub-score: if every
    skill of one profile is also declared by another, the other scores at
    least as much on every job. *)
Theorem skills_score_monotone profile profile' job :
  (forall s, In s (skills profile) -> In s (skills profile')) ->
  _calculate_skills_score profile job <= _calculate_skills_score profile' job.
Proof. apply skills_score_le. Qed.

Lemma skills_score_monotone_witness :
  _calculate_skills_score ada_profile job_ten_skills
  <= _calculate_skills_score dev_profile job_ten_skills.
Proof.
  apply (skills_score_monotone ada_profile dev_profile job_ten_skills).
  intros s [<-|[]]. left. reflexivity.
Defined.

(** X3. With the same preferences, declaring more skills never lowers the
    final score of any job. *)
Theorem calculate_score_monotone_in_skills profile profile' job :
  (forall s, In s (skills profile) -> In s (skills profile')) ->
  preferred_locations profile' = preferred_locations profile ->
  is_open_to_remote profile' = is_open_to_remote profile ->
  preferred_project_types profile' = preferred_project_types profile ->
  calculate_score profile job <= calculate_score profile' job.
Proof.
  intros Sub EL ER ET. rewrite !calculate_score_weighted.
  assert (L : _calculate_location_score profile' job = _calculate_location_score profile job).
  { unfold _calculate_location_score. rewrite EL, ER. reflexivity. }
  assert (T : _calculate_type_score profile' job = _calculate_type_score profile job).
  { unfold _calculate_type_score. rewrite ET. reflexivity. }
  rewrite L, T.
  apply weighted_score_mono;
    try apply skills_score_range; try apply location_score_range;
    try apply type_score_range; try apply Qle_refl.
  apply skills_score_le, Sub.
Qed.

Lemma calculate_score_monotone_in_skills_witness :
  calculate_score ada_profile job_ten_skills <= calculate_score dev_profile job_ten_skills.
Proof.
  apply (calculate_score_monotone_in_skills ada_profile dev_profile job_ten_skills);
    [|reflexivity|reflexivity|reflexivity].
  intros s [<-|[]]. left. reflexivity.
Defined.

Lemma weighted_score_full_skills : float_lit (6 # 10) <= weighted_score 1 0 0.
Proof. vm_compute. discriminate. Qed.

Lemma weighted_score_no_skills : weighted_score 0 1 1 <= float_lit (4 # 10).
Proof. vm_compute. discriminate. Qed.

Lemma float_lit_tenth_lt_six : float_lit (1 # 10) < float_lit (6 # 10).
Proof. vm_compute. reflexivity. Qed.

Lemma skills_score_no_requirement profile job :
  required_skills job = [] -> _calculate_skills_score profile job == 1.
Proof.
  intros E. unfold _calculate_skills_score. rewrite E.
  destruct (decide _) as [_|N]; [apply float_lit_1|]. exfalso. apply N. reflexivity.
Qed.

Lemma skills_score_no_skill profile job :
  required_skills job <> [] -> skills profile = [] ->
  _calculate_skills_score profile job == 0.
Proof.
  intros HR HU. unfold _calculate_skills_score.
  destruct (decide _) as [E|_]; [apply list_to_set_empty_iff in E; contradiction|].
  rewrite HU. destruct (decide _) as [_|N]; [apply float_lit_0|].
  exfalso. apply N. reflexivity.
Qed.

(** X4. A job that requires no skill scores at least 0.6 for every candidate,
    hence always clears the threshold: as a candidate job it always gets a
    record among the ranked ones.  A candidate without skills scores at most
    0.4 on a job that requires some. *)
Theorem score_bounds_from_skills user profile job w :
  (required_skills job = [] ->
     float_lit (6 # 10) <= calculate_score profile job /\
     (In job (candidate_jobs (applications user) (jobs w)) ->
      In (new_recommendation user job (calculate_score profile job))
         (ranked user profile w))) /\
  (required_skills job <> [] -> skills profile = [] ->
     calculate_score profile job <= float_lit (4 # 10)).
Proof.
  pose proof (location_score_range profile job) as [L0 L1].
  pose proof (type_score_range profile job) as [T0 T1].
  split.
  - intros E. pose proof (skills_score_no_requirement profile job E) as S.
    assert (B : float_lit (6 # 10) <= calculate_score profile job).
    { rewrite calculate_score_weighted.
      apply Qle_trans with (weighted_score 1 0 0); [apply weighted_score_full_skills|].
      assert (S1 : 1 <= _calculate_skills_score profile job)
        by (rewrite S; apply Qle_refl).
      apply weighted_score_mono; lra. }
    split; [exact B|]. intros Hc. apply ranked_In. exists job.
    split; [exact Hc|]. split; [|reflexivity].
    apply above_threshold_true.
    apply Qlt_le_trans with (float_lit (6 # 10)); [apply float_lit_tenth_lt_six | exact B].
  - intros HR HU. pose proof (skills_score_no_skill profile job HR HU) as S.
    rewrite calculate_score_weighted.
    apply Qle_trans with (weighted_score 0 1 1); [|apply weighted_score_no_skills].
    assert (S0 : 0 <= _calculate_skills_score profile job
                 /\ _calculate_skills_score profile job <= 0)
      by (rewrite S; split; apply Qle_refl).
    apply weighted_score_mono; lra.
Qed.

Lemma score_bounds_from_skills_witness :
  float_lit (6 # 10) <= calculate_score ada_profile job_remote_open /\
  calculate_score blank_profile job_lagos_go <= float_lit (4 # 10).
Proof.
  split.
  - exact (proj1 (proj1 (score_bounds_from_skills ada ada_profile job_remote_open
                           (sample_world [])) eq_refl)).
  - refine (proj2 (score_bounds_from_skills ada blank_profile job_lagos_go
                     (sample_world [])) _ eq_refl).
    discriminate.
Defined.

Lemma reason_percent_table :
  forallb (fun k => (reason_percent (float_lit (inject_Z (Z.of_nat k) / 100))
                     =? shown_percent (Z.of_nat k))%Z)
          (seq 0 101) = true.
Proof. vm_compute. reflexivity. Qed.

Lemma calculate_score_hundredths profile job :
  exists n : Z, (0 <= n <= 100)%Z /\
                calculate_score profile job = float_lit (inject_Z n / 100).
Proof.
  rewrite calculate_score_weighted. unfold weighted_score.
  destruct (py_round_2_decimal _
              (weighted_sum_range _ _ _ (skills_score_range profile job)
                 (location_score_range profile job) (type_score_range profile job)))
    as (n & Hn & En).
  exists n. split; [exact Hn|]. apply py_round_eq_leibniz. exact En.
Qed.

Lemma reason_text_percent s :
  reason_text s =
  ("Matched based on skills and preferences (Score: "
   +:+ NilZero.string_of_int (Z.to_int (reason_percent s)) +:+ "%)")%string.
Proof. reflexivity. Qed.

(** X5. The percentage in the reason text is the score truncated, not
    rounded: for a score of n/100 it shows n, except for 0.29, 0.57 and 0.58
    where the float product falls just below n and it shows n - 1. *)
Theorem reason_percent_truncates profile job :
  exists n : Z,
    (0 <= n <= 100)%Z /\
    calculate_score profile job = float_lit (inject_Z n / 100) /\
    reason_percent (calculate_score profile job) = shown_percent n /\
    reason_text (calculate_score profile job) =
      ("Matched based on skills and preferences (Score: "
       +:+ NilZero.string_of_int (Z.to_int (shown_percent n)) +:+ "%)")%string.
Proof.
  destruct (calculate_score_hundredths profile job) as (n & Hn & En).
  exists n. split; [exact Hn|]. split; [exact En|].
  assert (P : reason_percent (calculate_score profile job) = shown_percent n).
  { rewrite En. pose proof reason_percent_table as T.
    rewrite forallb_forall in T. specialize (T (Z.to_nat n)).
    rewrite Z2Nat.id in T by lia. apply Z.eqb_eq, T, in_seq. lia. }
  split; [exact P|]. rewrite reason_text_percent, P. reflexivity.
Qed.

Example reason_percent_of_058 :
  calculate_score dev_profile job_ten_skills = float_lit (58 # 100) /\
  reason_text (calculate_score dev_profile job_ten_skills) =
  "Matched based on skills and preferences (Score: 57%)"%string.
Proof. split; vm_compute; reflexivity. Qed.

Lemma ci_substring_empty (a : string) : ci_substring "" a.
Proof. exists ""%string, (lower a). reflexivity. Qed.

Lemma location_score_of_match profile job :
  preferred_locations profile <> [] -> location_matches profile job ->
  _calculate_location_score profile job == 1.
Proof.
  intros NE M. unfold _calculate_location_score.
  destruct (preferred_locations profile) as [|l0 ls] eqn:E; [contradiction|].
  apply (location_loop_spec (location job)) in M. rewrite E in M. rewrite M.
  apply float_lit_1.
Qed.

(** X6. The substring test is satisfied by the empty string: a job whose
    location is empty, and likewise an empty string among the preferred
    locations, gives the location sub-score 1.0 whatever the other strings
    are. *)
Theorem empty_location_always_matches profile job :
  (preferred_locations profile <> [] -> location job = ""%string ->
     _calculate_location_score profile job == 1) /\
  (In ""%string (preferred_locations profile) ->
     _calculate_location_score profile job == 1).
Proof.
  split.
  - intros NE E. apply location_score_of_match; [exact NE|].
    destruct (preferred_locations profile) as [|l0 ls] eqn:P; [contradiction|].
    exists l0. rewrite P. split; [left; reflexivity|]. right. rewrite E.
    apply ci_substring_empty.
  - intros I. apply location_score_of_match.
    + intros E. rewrite E in I. destruct I.
    + exists ""%string. split; [exact I|]. left. apply ci_substring_empty.
Qed.

Lemma empty_location_always_matches_witness :
  _calculate_location_score ada_profile job_no_location == 1 /\
  _calculate_location_score
    {| preferred_project_types := []; preferred_locations := ["Accra"; ""]%string;
       is_open_to_remote := false; skills := [] |} job_remote_open == 1.
Proof.
  destruct (empty_location_always_matches ada_profile job_no_location) as [H1 _].
  destruct (empty_location_always_matches
              {| preferred_project_types := [];
                 preferred_locations := ["Accra"; ""]%string;
                 is_open_to_remote := false; skills := [] |} job_remote_open)
    as [_ H2].
  split; [apply H1; [discriminate | reflexivity] | apply H2; right; left; reflexivity].
Defined.

End ScoringExtras.

(* ------------------------------------------------------------------ *)
(** ** Further properties of the generation run *)

Lemma write_jobs f w : jobs (snd (write f w)) = jobs w.
Proof. rewrite write_run. destruct (raises_at 0 w); reflexivity. Qed.

Lemma generate_jobs user limit w :
  jobs (snd (generate_recommendations user limit w)) = jobs w.
Proof.
  destruct (freelancer_profile user) as [profile|] eqn:P.
  - rewrite (generate_run user profile limit w P). cbv zeta.
    destruct (raises_at 0 w); [reflexivity|].
    destruct (slice_to _ _); [reflexivity|].
    destruct (raises_at 0 _); reflexivity.
  - rewrite (generate_no_profile user limit w P). reflexivity.
Qed.

Lemma ranked_same_jobs user profile w w' :
  jobs w' = jobs w -> ranked user profile w' = ranked user profile w.
Proof. intros E. unfold ranked. rewrite E. reflexivity. Qed.

(** After any run the other rows are the ones the table started with. *)
Lemma generate_others user limit w :
  others_of user (job_recommendations (snd (generate_recommendations user limit w)))
  = others_of user (job_recommendations w).
Proof. apply generate_frame. Qed.

Lemma sorted_app_le l1 l2 :
  sorted_by_score_desc (l1 ++ l2) ->
  forall r r', In r l1 -> In r' l2 -> (score r' <= score r)%Q.
Proof.
  unfold sorted_by_score_desc. induction l1 as [|x l1 IH]; intros S r r' H1 H2.
  - destruct H1.
  - simpl in S. inversion S as [|? ? S' F]; subst. destruct H1 as [<-|H1].
    + rewrite List.Forall_forall in F. apply F, in_or_app. right. exact H2.
    + apply (IH S' r r' H1 H2).
Qed.

(** X7. Every returned record describes a published job the user has not
    applied to: it carries the user, that job's id, the job's score for the
    user's profile, the reason text for that score, the content-based tag and
    cleared interaction flags. *)
Theorem returned_records_describe_candidates user limit w batch w' r :
  generate_recommendations user limit w = (Returns batch, w') ->
  In r batch ->
  exists profile job,
    freelancer_profile user = Some profile /\
    In job (jobs w) /\ status job = published /\
    ~ In (job_id job) (applications user) /\
    rec_user r = user_id user /\ rec_job r = job_id job /\
    score r = calculate_score profile job /\
    reason r = reason_text (calculate_score profile job) /\
    algorithm_type r = content_based /\
    is_viewed r = false /\ is_clicked r = false /\ is_applied r = false.
Proof.
  intros E Hr. apply generate_returns_batch in E.
  destruct (freelancer_profile user) as [profile|]; destruct E as (-> & _);
    [|destruct Hr].
  apply slice_to_In, ranked_In in Hr as (job & Hc & _ & ->).
  apply candidate_jobs_In in Hc as (Hj & Hs & Ha).
  exists profile, job. repeat (split; [first [reflexivity | assumption]|]).
  reflexivity.
Qed.

Lemma returned_records_describe_candidates_witness :
  exists batch w' r,
    generate_recommendations ada 1 (sample_world []) = (Returns batch, w') /\
    In r batch /\ rec_job r = 1%N /\ algorithm_type r = content_based.
Proof.
  destruct (generate_recommendations ada 1 (sample_world [])) as [[batch|] w'] eqn:E;
    [|vm_compute in E; discriminate E].
  assert (L : exists r, batch = [r] /\ rec_job r = 1%N).
  { vm_compute in E. injection E as <- _. eexists. split; reflexivity. }
  destruct L as (r & -> & J).
  destruct (returned_records_describe_candidates ada 1 (sample_world []) [r] w' r E)
    as (profile & job & _ & _ & _ & _ & _ & _ & _ & _ & A & _); [left; reflexivity|].
  exists [r], w', r. split; [reflexivity|]. split; [left; reflexivity|].
  split; [exact J | exact A].
Defined.

(** X8. For a limit that is not negative the returned batch is the top of the
    ranking: it is the first min(limit, n) of the n ranked records, and no
    record left out scores higher than a returned one. *)
Theorem batch_is_top_of_ranking user profile limit w batch w' :
  freelancer_profile user = Some profile ->
  (0 <= limit)%Z ->
  generate_recommendations user limit w = (Returns batch, w') ->
  exists rest,
    ranked user profile w = batch ++ rest /\
    length batch = Nat.min (Z.to_nat limit) (length (ranked user profile w)) /\
    forall r r', In r batch -> In r' rest -> (score r' <= score r)%Q.
Proof.
  intros P L E. apply generate_returns_batch in E. rewrite P in E.
  destruct E as (-> & _). unfold slice_to.
  destruct (Z.ltb_spec limit 0); [lia|].
  exists (skipn (Z.to_nat limit) (ranked user profile w)).
  split; [symmetry; apply firstn_skipn|].
  split; [apply length_firstn|].
  apply sorted_app_le. rewrite firstn_skipn. apply ranked_sorted.
Qed.

Lemma batch_is_top_of_ranking_witness :
  exists batch w' rest,
    generate_recommendations ada 2 (sample_world []) = (Returns batch, w') /\
    ranked ada ada_profile (sample_world []) = batch ++ rest /\
    length batch = 2%nat /\ length rest = 1%nat.
Proof.
  destruct (generate_recommendations ada 2 (sample_world [])) as [[batch|] w'] eqn:E;
    [|vm_compute in E; discriminate E].
  destruct (batch_is_top_of_ranking ada ada_profile 2 (sample_world []) batch w'
              eq_refl ltac:(lia) E) as (rest & R & Lb & _).
  exists batch, w', rest. split; [reflexivity|]. split; [exact R|].
  assert (Ln : length (ranked ada ada_profile (sample_world [])) = 3%nat)
    by (vm_compute; reflexivity).
  rewrite Ln in Lb. split; [exact Lb|].
  apply (f_equal (@length _)) in R. rewrite length_app, Ln in R.
  change (Nat.min (Z.to_nat 2) 3) with 2%nat in Lb. lia.
Defined.

(** X9. Running the engine again on the world a run left behind, with the
    same limit and no store fault, returns the same batch and leaves the
    table as it is. *)
Theorem rerun_changes_nothing user limit w batch w' :
  generate_recommendations user limit w = (Returns batch, w') ->
  no_fault w' ->
  exists w'',
    generate_recommendations user limit w' = (Returns batch, w'') /\
    job_recommendations w'' = job_recommendations w'.
Proof.
  intros E NF.
  pose proof (generate_jobs user limit w) as J. rewrite E in J. simpl in J.
  destruct (generate_returns user limit w' NF) as (batch2 & w'' & E2).
  pose proof (generate_returns_batch _ _ _ _ _ E) as G.
  pose proof (generate_returns_batch _ _ _ _ _ E2) as G2.
  destruct (freelancer_profile user) as [profile|].
  - destruct G as (B & T & _). destruct G2 as (B2 & T2 & _).
    rewrite (ranked_same_jobs user profile w w' J) in B2.
    assert (Eb : batch2 = batch) by congruence.
    clear B2. rewrite Eb in E2, T2.
    exists w''. split; [exact E2|]. rewrite T2, T.
    rewrite others_of_app; [rewrite others_of_idem; reflexivity|].
    intros r Hr. rewrite B in Hr.
    apply (ranked_content_based user profile w), (slice_to_In _ limit), Hr.
  - destruct G as (-> & ->). destruct G2 as (-> & ->). exists w. tauto.
Qed.

Lemma rerun_changes_nothing_witness :
  exists batch w' w'',
    generate_recommendations ada 2 (sample_world []) = (Returns batch, w') /\
    generate_recommendations ada 2 w' = (Returns batch, w'') /\
    job_recommendations w'' = job_recommendations w'.
Proof.
  destruct (generate_recommendations ada 2 (sample_world [])) as [[batch|] w'] eqn:E;
    [|vm_compute in E; discriminate E].
  assert (NF : no_fault w').
  { assert (F : write_faults w' = []) by (vm_compute in E; injection E as _ <-; reflexivity).
    intros b Hb. rewrite F in Hb. destruct Hb. }
  destruct (rerun_changes_nothing ada 2 (sample_world []) batch w' E NF)
    as (w'' & E2 & T).
  exists batch, w', w''. split; [reflexivity|]. split; [exact E2 | exact T].
Defined.

(** X10. A run that raised is repaired by running again: if the next run
    meets no store fault, it returns the batch the failed run was to store
    and leaves the table in the state a run without fault would have
    reached from the original table. *)
Theorem rerun_repairs_failed_run user profile limit w :
  freelancer_profile user = Some profile ->
  fst (generate_recommendations user limit w) = Raises ->
  let w1 := snd (generate_recommendations user limit w) in
  no_fault w1 ->
  exists w2,
    generate_recommendations user limit w1 =
      (Returns (slice_to (ranked user profile w) limit), w2) /\
    job_recommendations w2 =
      others_of user (job_recommendations w) ++ slice_to (ranked user profile w) limit.
Proof.
  intros P F w1 NF.
  pose proof (generate_jobs user limit w) as J. fold w1 in J.
  pose proof (generate_others user limit w) as O. fold w1 in O.
  destruct (generate_returns user limit w1 NF) as (batch & w2 & E2).
  pose proof (generate_returns_batch _ _ _ _ _ E2) as G. rewrite P in G.
  destruct G as (B & T & _).
  rewrite (ranked_same_jobs user profile w w1 J) in B. rewrite O in T.
  exists w2. subst batch. split; [exact E2 | exact T].
Qed.

Lemma rerun_repairs_failed_run_witness :
  exists w2,
    generate_recommendations ada 2
      (snd (generate_recommendations ada 2 (sample_world [false; true]))) =
      (Returns (slice_to (ranked ada ada_profile (sample_world [false; true])) 2), w2) /\
    job_recommendations w2 =
      [collaborative_row; foreign_row]
        ++ slice_to (ranked ada ada_profile (sample_world [false; true])) 2.
Proof.
  refine (rerun_repairs_failed_run ada ada_profile 2 (sample_world [false; true])
            eq_refl _ _).
  - vm_compute. reflexivity.
  - assert (F : write_faults
                  (snd (generate_recommendations ada 2 (sample_world [false; true]))) = [])
      by (vm_compute; reflexivity).
    intros b Hb. rewrite F in Hb. destruct Hb.
Defined.

(** X14. After a run that returns for a user with a profile and a limit that
    is not negative, the user's content-based rows in the table number at
    most [limit], are in descending score order, and all score above 0.10,
    whatever rows the table held before. *)
Theorem stored_batch_invariant user profile limit w batch w' :
  freelancer_profile user = Some profile ->
  (0 <= limit)%Z ->
  generate_recommendations user limit w = (Returns batch, w') ->
  let stored := batch_of user (job_recommendations w') in
  (Z.of_nat (length stored) <= limit)%Z /\
  sorted_by_score_desc stored /\
  forall r, In r stored -> (float_lit (1 # 10) < score r)%Q.
Proof.
  intros P L E stored. apply generate_returns_batch in E. rewrite P in E.
  destruct E as (B & T & _).
  assert (S : stored = slice_to (ranked user profile w) limit).
  { unfold stored. rewrite T, batch_of_app; [exact B|].
    intros r Hr. rewrite B in Hr.
    apply (ranked_content_based user profile w), (slice_to_In _ limit), Hr. }
  rewrite S. split; [apply slice_to_length, L|]. split.
  - destruct (slice_to_firstn (ranked user profile w) limit) as [n ->].
    apply firstn_sorted, ranked_sorted.
  - intros r Hr. apply (ranked_above_threshold user profile w), (slice_to_In _ limit), Hr.
Qed.

Lemma stored_batch_invariant_witness :
  exists batch w',
    generate_recommendations ada 2 (sample_world []) = (Returns batch, w') /\
    (Z.of_nat (length (batch_of ada (job_recommendations w'))) <= 2)%Z /\
    sorted_by_score_desc (batch_of ada (job_recommendations w')).
Proof.
  destruct (generate_recommendations ada 2 (sample_world [])) as [[batch|] w'] eqn:E;
    [|vm_compute in E; discriminate E].
  destruct (stored_batch_invariant ada ada_profile 2 (sample_world []) batch w'
              eq_refl ltac:(lia) E) as (H1 & H2 & _).
  exists batch, w'. split; [reflexivity|]. split; [exact H1 | exact H2].
Defined.

(* ------------------------------------------------------------------ *)
(** ** Order among equal scores *)

Lemma insert_by_score_perm r l : Permutation (insert_by_score r l) (r :: l).
Proof.
  induction l as [|y ys IH]; cbn [insert_by_score]; [reflexivity|].
  destruct (fgt (score y) (score r)); [|reflexivity].
  rewrite IH. apply perm_swap.
Qed.

Lemma sort_by_score_desc_perm l : Permutation (sort_by_score_desc l) l.
Proof.
  induction l as [|y ys IH]; cbn [sort_by_score_desc]; [reflexivity|].
  rewrite insert_by_score_perm, IH. reflexivity.
Qed.

Lemma with_score_cons s r l :
  with_score s (r :: l) =
  if Qeq_bool (score r) s then r :: with_score s l else with_score s l.
Proof. reflexivity. Qed.

Lemma with_score_insert s r l :
  with_score s (insert_by_score r l) =
  if Qeq_bool (score r) s then r :: with_score s l else with_score s l.
Proof.
  induction l as [|y ys IH]; cbn [insert_by_score]; [reflexivity|].
  destruct (fgt (score y) (score r)) eqn:G; [|apply with_score_cons].
  rewrite (with_score_cons s y), IH, (with_score_cons s y).
  destruct (Qeq_bool (score y) s) eqn:Ey; [|reflexivity].
  destruct (Qeq_bool (score r) s) eqn:Er; [|reflexivity].
  exfalso. apply fgt_true in G. apply Qeq_bool_eq in Ey, Er.
  rewrite Ey, Er in G. apply (Qlt_irrefl _ G).
Qed.

Lemma with_score_sort s l :
  with_score s (sort_by_score_desc l) = with_score s l.
Proof.
  induction l as [|y ys IH]; cbn [sort_by_score_desc]; [reflexivity|].
  rewrite with_score_insert, with_score_cons, IH. reflexivity.
Qed.

(** X11. The ranking only reorders the records that clear the threshold, and
    records with equal scores keep the order in which the job table yields
    their jobs. *)
Theorem ranking_keeps_order_of_ties user profile w :
  let scored :=
    score_jobs user profile (candidate_jobs (applications user) (jobs w)) in
  Permutation (ranked user profile w) scored /\
  forall s, with_score s (ranked user profile w) = with_score s scored.
Proof.
  intros scored. unfold ranked. fold scored. split.
  - apply sort_by_score_desc_perm.
  - intros s. apply with_score_sort.
Qed.

(* ------------------------------------------------------------------ *)
(** ** The view and the task *)

Lemma get_queryset_run request_user w :
  get_queryset request_user w =
  if existsb (owned_by request_user) (job_recommendations w)
  then (Returns (user_queryset request_user), w)
  else match generate_recommendations request_user 10 w with
       | (Returns _, w') => (Returns (user_queryset request_user), w')
       | (Raises, w') => (Raises, w')
       end.
Proof.
  unfold get_queryset, exists_, mbind, Db_bind.
  change (where_ (user_queryset request_user)) with (owned_by request_user).
  destruct (existsb (owned_by request_user) (job_recommendations w));
    cbn [negb]; [reflexivity|].
  destruct (generate_recommendations request_user 10 w) as [[batch|] w'];
    reflexivity.
Qed.

Lemma owned_by_content_based user r :
  content_based_of user r = true -> owned_by user r = true.
Proof.
  unfold content_based_of, owned_by. intros H.
  apply andb_true_iff in H. tauto.
Qed.

Lemma existsb_false_filter {A} (f : A -> bool) l :
  existsb f l = false -> List.filter f l = [].
Proof.
  intros H. apply filter_all_false. intros x Hx.
  destruct (f x) eqn:F; [|reflexivity].
  assert (E : existsb f l = true) by (apply existsb_exists; eauto). congruence.
Qed.

Lemma filter_filter_nil {A} (f g : A -> bool) l :
  List.filter f l = [] -> List.filter f (List.filter g l) = [].
Proof.
  intros H. apply filter_all_false. intros x Hx. apply filter_In in Hx as [Hx _].
  destruct (f x) eqn:F; [|reflexivity].
  assert (I : In x (List.filter f l)) by (apply filter_In; tauto).
  rewrite H in I. destruct I.
Qed.

(** X12. The view generates recommendations only for a user who has no
    recommendation row at all.  If the user has a row of any algorithm, the
    view issues no statement and the world is unchanged.  If the user has
    none and no store statement fails, the engine runs with limit 10 and the
    rows the returned queryset matches are the rows of the returned batch,
    at most ten; the queryset keeps the model's ordering, so the order in
    which it yields them is not that of the batch. *)
Theorem view_generates_only_when_empty request_user w :
  (existsb (owned_by request_user) (job_recommendations w) = true ->
     get_queryset request_user w = (Returns (user_queryset request_user), w)) /\
  (existsb (owned_by request_user) (job_recommendations w) = false ->
   no_fault w ->
   exists batch w',
     generate_recommendations request_user 10 w = (Returns batch, w') /\
     get_queryset request_user w = (Returns (user_queryset request_user), w') /\
     Permutation (matched_rows (user_queryset request_user) w') batch /\
     (length batch <= 10)%nat).
Proof.
  split.
  - intros H. rewrite get_queryset_run, H. reflexivity.
  - intros H NF. destruct (generate_returns request_user 10 w NF) as (batch & w' & E).
    exists batch, w'. split; [exact E|].
    split; [rewrite get_queryset_run, H, E; reflexivity|].
    pose proof (generate_returns_batch _ _ _ _ _ E) as G.
    apply existsb_false_filter in H. unfold matched_rows.
    change (where_ (user_queryset request_user)) with (owned_by request_user).
    destruct (freelancer_profile request_user) as [profile|].
    + destruct G as (B & T & _). split.
      * rewrite T, List.filter_app. unfold others_of.
        rewrite (filter_filter_nil _ _ _ H). cbn [app].
        rewrite filter_all_true; [reflexivity|].
        intros r Hr. apply owned_by_content_based.
        rewrite B in Hr.
        apply (ranked_content_based request_user profile w), (slice_to_In _ 10), Hr.
      * rewrite B. pose proof (slice_to_length (ranked request_user profile w) 10).
        lia.
    + destruct G as (-> & ->). split; [rewrite H; reflexivity | simpl; lia].
Qed.

Lemma view_generates_only_when_empty_witness :
  get_queryset ada
    {| jobs := [job_lagos_python]; job_recommendations := [collaborative_row];
       committed := []; write_faults := [] |}
  = (Returns (user_queryset ada),
     {| jobs := [job_lagos_python]; job_recommendations := [collaborative_row];
        committed := []; write_faults := [] |}) /\
  exists batch w',
    generate_recommendations dev 10 (sample_world []) = (Returns batch, w') /\
    get_queryset dev (sample_world []) = (Returns (user_queryset dev), w') /\
    Permutation (matched_rows (user_queryset dev) w') batch /\
    (length batch <= 10)%nat.
Proof.
  split.
  - refine (proj1 (view_generates_only_when_empty ada _) _). reflexivity.
  - refine (proj2 (view_generates_only_when_empty dev (sample_world [])) _ _).
    + reflexivity.
    + intros b [].
Defined.

(** X13. The task returns normally in every case and runs the engine at
    most once: the world it leaves is the world that single run left, with no
    retry and no repair.  For an unknown id it reports "not found" and
    touches nothing.  A report "Generated n" carries the user's email and n
    is at most 10; for a user with a profile n is the number of
    content-based rows the user now has.  Whenever the engine raises, the
    task returns the error report: after a failed delete the table is
    unchanged, after a failed insert the user is left with no content-based
    row. *)
Theorem task_reports_and_swallows_failures users id w :
  let res := fst (generate_user_recommendations users id w) in
  let w' := snd (generate_user_recommendations users id w) in
  (exists report, res = Returns report) /\
  (users !! id = None -> res = Returns (UserNotFound id) /\ w' = w) /\
  (forall a,
     users !! id = Some a ->
     w' = snd (generate_recommendations (account_user a) 10 w) /\
     (fst (generate_recommendations (account_user a) 10 w) = Raises ->
      res = Returns ErrorGenerating)) /\
  (forall a n e,
     users !! id = Some a -> res = Returns (Generated n e) ->
     e = email a /\ (n <= 10)%nat /\
     (freelancer_profile (account_user a) <> None ->
      n = length (batch_of (account_user a) (job_recommendations w')))) /\
  (forall a profile,
     users !! id = Some a ->
     freelancer_profile (account_user a) = Some profile ->
     raises_at 0 w = true ->
     res = Returns ErrorGenerating /\
     job_recommendations w' = job_recommendations w) /\
  (forall a profile,
     users !! id = Some a ->
     freelancer_profile (account_user a) = Some profile ->
     slice_to (ranked (account_user a) profile w) 10 <> [] ->
     raises_at 0 w = false -> raises_at 1 w = true ->
     res = Returns ErrorGenerating /\
     batch_of (account_user a) (job_recommendations w') = [] /\
     others_of (account_user a) (job_recommendations w')
     = others_of (account_user a) (job_recommendations w)).
Proof.
  intros res w'. subst res w'. unfold generate_user_recommendations.
  split; [|split; [|split; [|split; [|split]]]].
  - destruct (users !! id) as [a|]; [|eauto].
    destruct (generate_recommendations (account_user a) 10 w) as [[batch|] w1];
      cbn [fst]; eauto.
  - intros ->. split; reflexivity.
  - intros a ->.
    destruct (generate_recommendations (account_user a) 10 w) as [[batch|] w1];
      cbn [fst snd]; split; try reflexivity. discriminate.
  - intros a n e ->.
    destruct (generate_recommendations (account_user a) 10 w) as [[batch|] w1] eqn:E;
      cbn [fst snd]; [|discriminate].
    intros H. injection H as <- <-.
    pose proof (generate_returns_batch _ _ _ _ _ E) as G.
    split; [reflexivity|].
    destruct (freelancer_profile (account_user a)) as [profile|].
    + destruct G as (B & T & _). split.
      * rewrite B. pose proof (slice_to_length (ranked (account_user a) profile w) 10).
        lia.
      * intros _. rewrite T, batch_of_app; [reflexivity|].
        intros r Hr. rewrite B in Hr.
        apply (ranked_content_based (account_user a) profile w), (slice_to_In _ 10), Hr.
    + destruct G as (-> & ->). split; [simpl; lia | intros C; contradiction].
  - intros a profile -> P R0.
    rewrite (generate_run (account_user a) profile 10 w P). cbv zeta. rewrite R0.
    split; reflexivity.
  - intros a profile -> P NE R0 R1.
    rewrite (generate_run (account_user a) profile 10 w P). cbv zeta. rewrite R0.
    destruct (slice_to (ranked (account_user a) profile w) 10) as [|r rs];
      [contradiction|].
    assert (R : raises_at 0 (after_write (others_of (account_user a)
                                            (job_recommendations w)) w) = true).
    { unfold raises_at in *. simpl. destruct (write_faults w); [discriminate R1 | exact R1]. }
    rewrite R. cbn [fst snd after_fault after_write job_recommendations].
    split; [reflexivity|]. split; [apply batch_of_others | apply others_of_idem].
Qed.

Lemma task_reports_and_swallows_failures_witness :
  fst (generate_user_recommendations sample_users 5 (sample_world []))
  = Returns (UserNotFound 5) /\
  (exists n, fst (generate_user_recommendations sample_users 1 (sample_world []))
             = Returns (Generated n "ada@example.com") /\ (n <= 10)%nat) /\
  (fst (generate_user_recommendations sample_users 1 (sample_world [true]))
   = Returns ErrorGenerating /\
   job_recommendations
     (snd (generate_user_recommendations sample_users 1 (sample_world [true])))
   = [old_row; collaborative_row; foreign_row]) /\
  fst (generate_user_recommendations sample_users 1 (sample_world [false; true]))
  = Returns ErrorGenerating /\
  batch_of ada (job_recommendations
                  (snd (generate_user_recommendations sample_users 1
                          (sample_world [false; true])))) = [].
Proof.
  pose (a := {| account_user := ada; email := "ada@example.com" |}).
  split; [|split; [|split]].
  - refine (proj1 (proj1 (proj2 (task_reports_and_swallows_failures sample_users 5
                                    (sample_world []))) _)).
    reflexivity.
  - assert (E : fst (generate_user_recommendations sample_users 1 (sample_world []))
                = Returns (Generated 3 "ada@example.com")) by (vm_compute; reflexivity).
    exists 3%nat. split; [exact E|].
    refine (proj1 (proj2 (proj1 (proj2 (proj2 (proj2
              (task_reports_and_swallows_failures sample_users 1 (sample_world [])))))
              a 3%nat "ada@example.com"%string _ E))).
    reflexivity.
  - refine (proj1 (proj2 (proj2 (proj2 (proj2
              (task_reports_and_swallows_failures sample_users 1 (sample_world [true]))))))
              a ada_profile _ _ _); reflexivity.
  - pose proof (proj2 (proj2 (proj2 (proj2 (proj2
                  (task_reports_and_swallows_failures sample_users 1
                     (sample_world [false; true]))))))
                  a ada_profile) as H.
    destruct H as (H1 & H2 & _); try reflexivity.
    + intros C. vm_compute in C. discriminate C.
    + split; [exact H1 | exact H2].
Defined.
